(** * sender.py: a periodic TCP sender

    The script opens one TCP connection to [(HOST, PORT)] and then, forever,
    builds the text [Hello <counter> at <time.time()>], writes its encoding to
    the socket, prints it, increments the counter and sleeps one second.

    The development has these parts:
    - [Text]: Python's [str], [str(int)], [repr(float)], [str.encode()] and
      the regular expression the receiver matches payloads against;
    - [World]: the calls the script makes to its environment, the replies
      the environment may give, and the monad the script runs in;
    - [Sender]: the script itself, line by line;
    - [Trace]: what an observer reads off the log of a run, and the logs a
      run can leave;
    - [Worlds]: some environments to run the script in;
    - [Process]: the script from its first line, with the socket that may
      not be made and the signals between two calls;
    - the shape of every run and of every process, and the properties of
      the specification. *)

From Stdlib Require Import ZArith NArith List String Ascii Bool Lia.
From Stdlib.Strings Require Import Byte.
From Stdlib Require Import Decimal DecimalString DecimalZ DecimalN DecimalPos.
Import ListNotations.

Local Open Scope string_scope.
Local Open Scope Z_scope.

(* ================================================================= *)
(** ** Text *)

Module Text.

(** A Python [str] is a sequence of code points.  Every code point the script
    ever produces is below 256, so a Rocq [string] (one [ascii] per code point)
    holds them. *)
Definition text := string.

(** [bytes] objects. *)
Definition bytes := list byte.

Definition code (c : ascii) : N := N_of_ascii c.

Definition is_digit (c : ascii) : bool :=
  ((48 <=? code c) && (code c <=? 57))%N.

Definition all_digits (s : text) : bool :=
  forallb is_digit (list_ascii_of_string s).

(** [str(n)] for an [int]: base ten, a leading [-] below zero, no padding. *)
Definition str_int (n : Z) : text := NilEmpty.string_of_int (Z.to_int n).

(** [int(s)] restricted to what [str_int] produces. *)
Definition int_of_text (s : text) : option Z :=
  option_map Z.of_int (NilEmpty.int_of_string s).

(** *** Floating-point numbers and their [repr]

    The script does one thing with the [float] that [time.time()] returns: it
    formats it with an empty format specification, which is [repr].  CPython
    computes [repr] in two steps.  First the shortest string of decimal digits
    that reads back as the same double is found, together with the position of
    the decimal point: the double is [0.d1 d2 ... dn * 10^decpt].  Then the
    digits are laid out, positionally when [-4 < decpt <= 16] and with an
    exponent otherwise.  A clock reading is represented here by the outcome of
    the first step, and the second step is [float_repr]. *)
Record pyfloat := mk_float {
  f_neg    : bool;        (* sign bit *)
  f_digits : list ascii;  (* d1 ... dn, the shortest round-trip digits *)
  f_decpt  : Z            (* position of the decimal point *)
}.

Definition wf_float (x : pyfloat) : bool :=
  forallb is_digit (f_digits x) && negb (Nat.eqb (List.length (f_digits x)) 0).

(** The readings that [repr] writes as digits, a point, digits: not negative,
    and with the point in the positional range. *)
Definition positional (x : pyfloat) : bool :=
  wf_float x && negb (f_neg x) && (-4 <? f_decpt x) && (f_decpt x <=? 16).

(** The readings whose [repr] starts with digits, a point and a digit: not
    negative, and either positional or with a second digit to put after the
    point of the exponent notation. *)
Definition fractional (x : pyfloat) : bool :=
  wf_float x && negb (f_neg x) &&
  (((-4 <? f_decpt x) && (f_decpt x <=? 16))
   || Nat.ltb 1 (List.length (f_digits x))).

Definition zeros (n : Z) : list ascii := repeat "0"%char (Z.to_nat n).

(** The digits before and after the decimal point for a point position
    [decpt], before any [.0] is added. *)
Definition layout (digits : list ascii) (decpt : Z) : list ascii * list ascii :=
  let n := Z.of_nat (List.length digits) in
  if decpt <=? 0 then (["0"%char], (zeros (- decpt) ++ digits)%list)
  else if decpt <=? n then
    (firstn (Z.to_nat decpt) digits, skipn (Z.to_nat decpt) digits)
  else ((digits ++ zeros (decpt - n))%list, []).

(** The exponent suffix: a sign and at least two digits. *)
Definition exponent_suffix (e : Z) : text :=
  let a := Z.abs e in
  "e" ++ (if e <? 0 then "-" else "+")
      ++ (if a <? 10 then "0" else "") ++ str_int a.

Definition float_repr (x : pyfloat) : text :=
  let sign := if f_neg x then "-" else "" in
  let decpt := f_decpt x in
  if (decpt <=? -4) || (16 <? decpt) then
    (* exponent notation: the point goes after the first digit, and is
       dropped when nothing follows it *)
    let '(int_part, frac_part) := layout (f_digits x) 1 in
    sign ++ string_of_list_ascii int_part
         ++ match frac_part with
            | [] => ""
            | _ => "." ++ string_of_list_ascii frac_part
            end
         ++ exponent_suffix (decpt - 1)
  else
    let '(int_part, frac_part) := layout (f_digits x) decpt in
    sign ++ string_of_list_ascii int_part ++ "."
         ++ string_of_list_ascii
              (match frac_part with [] => ["0"%char] | _ => frac_part end).

(** *** [str.encode()]: UTF-8

    Code points below 128 take one byte, the others representable here take
    two. *)
Definition byte_of_N (n : N) : byte := byte_of_ascii (ascii_of_N n).

Definition utf8_char (c : ascii) : bytes :=
  let n := code c in
  if (n <? 128)%N then [byte_of_N n]
  else [byte_of_N (192 + n / 64); byte_of_N (128 + n mod 64)]%N.

Definition encode (s : text) : bytes :=
  flat_map utf8_char (list_ascii_of_string s).

(** What a receiver does with a payload of one-byte code points. *)
Definition decode_ascii (b : bytes) : text := string_of_list_byte b.

Definition is_ascii (s : text) : bool :=
  forallb (fun c => (code c <? 128)%N) (list_ascii_of_string s).

(** *** Regular expressions *)

Inductive regex :=
| Empty                       (* matches nothing *)
| Eps                         (* the empty string *)
| Chr (c : ascii)
| Digit                       (* \d *)
| Any                         (* . *)
| Cat (r1 r2 : regex)
| Alt (r1 r2 : regex)
| Star (r : regex).

Definition Plus (r : regex) : regex := Cat r (Star r).

Fixpoint Lit (s : text) : regex :=
  match s with
  | EmptyString => Eps
  | String c s' => Cat (Chr c) (Lit s')
  end.

Fixpoint nullable (r : regex) : bool :=
  match r with
  | Empty | Chr _ | Digit | Any => false
  | Eps | Star _ => true
  | Cat r1 r2 => nullable r1 && nullable r2
  | Alt r1 r2 => nullable r1 || nullable r2
  end.

Fixpoint deriv (c : ascii) (r : regex) : regex :=
  match r with
  | Empty | Eps => Empty
  | Chr c' => if Ascii.eqb c c' then Eps else Empty
  | Digit => if is_digit c then Eps else Empty
  | Any => Eps
  | Cat r1 r2 =>
      if nullable r1 then Alt (Cat (deriv c r1) r2) (deriv c r2)
      else Cat (deriv c r1) r2
  | Alt r1 r2 => Alt (deriv c r1) (deriv c r2)
  | Star r1 => Cat (deriv c r1) (Star r1)
  end.

(** [re.fullmatch]. *)
Fixpoint fullmatch (r : regex) (s : text) : bool :=
  match s with
  | EmptyString => nullable r
  | String c s' => fullmatch (deriv c r) s'
  end.

(** [re.search]: the pattern occurs somewhere in the text. *)
Definition search (r : regex) (s : text) : bool :=
  fullmatch (Cat (Star Any) (Cat r (Star Any))) s.

(** The language of a regular expression. *)
Inductive Matches : regex -> text -> Prop :=
| MEps : Matches Eps ""
| MChr c : Matches (Chr c) (String c "")
| MDigit c : is_digit c = true -> Matches Digit (String c "")
| MAny c : Matches Any (String c "")
| MCat r1 r2 s1 s2 :
    Matches r1 s1 -> Matches r2 s2 -> Matches (Cat r1 r2) (s1 ++ s2)
| MAltL r1 r2 s : Matches r1 s -> Matches (Alt r1 r2) s
| MAltR r1 r2 s : Matches r2 s -> Matches (Alt r1 r2) s
| MStarNil r : Matches (Star r) ""
| MStarApp r s1 s2 :
    Matches r s1 -> Matches (Star r) s2 -> Matches (Star r) (s1 ++ s2).

(** How often a character occurs in a text. *)
Fixpoint occurrences (c : ascii) (s : text) : nat :=
  match s with
  | EmptyString => O
  | String a s' => ((if Ascii.eqb a c then 1 else 0) + occurrences c s')%nat
  end.

(** The pattern of the receiver's test: [Hello \d+ at \d+\.\d+]. *)
Definition payload_pattern : regex :=
  Cat (Lit "Hello ")
   (Cat (Plus Digit)
     (Cat (Lit " at ")
       (Cat (Plus Digit) (Cat (Chr ".") (Plus Digit))))).

(** *** Reading the sequence number back

    The receiver's view of a payload: after [Hello ] comes the longest run of
    digits, then a space. *)
Fixpoint span_digits (s : text) : text * text :=
  match s with
  | EmptyString => ("", "")
  | String c s' =>
      if is_digit c then
        let '(ds, rest) := span_digits s' in (String c ds, rest)
      else ("", s)
  end.

Fixpoint strip_prefix (p s : text) : option text :=
  match p, s with
  | EmptyString, _ => Some s
  | String a p', String b s' =>
      if Ascii.eqb a b then strip_prefix p' s' else None
  | String _ _, EmptyString => None
  end.

Definition seq_of_payload (b : bytes) : option Z :=
  match strip_prefix "Hello " (decode_ascii b) with
  | None => None
  | Some rest =>
      let '(ds, rest') := span_digits rest in
      match strip_prefix " at " rest' with
      | None => None
      | Some _ => int_of_text ds
      end
  end.

(** *** Reading a payload as the receiver does

    [bytes.decode()]: UTF-8, for the byte sequences that encode code points
    a [text] can hold.  A byte below 128 is a code point; a lead byte 194 or
    195 with one continuation byte is a code point from 128 to 255; any other
    sequence is refused. *)
Fixpoint decode_utf8 (b : bytes) : option text :=
  match b with
  | [] => Some ""
  | b1 :: rest =>
      let n1 := Byte.to_N b1 in
      if (n1 <? 128)%N then
        option_map (String (ascii_of_N n1)) (decode_utf8 rest)
      else
        match rest with
        | [] => None
        | b2 :: rest' =>
            let n2 := Byte.to_N b2 in
            if ((194 <=? n1) && (n1 <=? 195) && (128 <=? n2) && (n2 <? 192))%N
            then option_map
                   (String (ascii_of_N ((n1 - 192) * 64 + (n2 - 128))))
                   (decode_utf8 rest')
            else None
        end
  end.

(** The two fields of a message text: the sequence number and the text of
    the timestamp. *)
Definition parse_message (s : text) : option (Z * text) :=
  match strip_prefix "Hello " s with
  | None => None
  | Some rest =>
      let '(ds, rest') := span_digits rest in
      match ds, strip_prefix " at " rest' with
      | String _ _, Some ts => option_map (fun k => (k, ts)) (int_of_text ds)
      | _, _ => None
      end
  end.

End Text.

(* ================================================================= *)
(** ** The world the script talks to *)

Module World.
Import Text.

(** The calls that leave the process once its socket exists.  The state of
    the socket is tracked in [sock] below; its creation, which can fail, is
    a step of [Process]. *)
Inductive call :=
| Connect (host : text) (port : Z)    (* s.connect((host, port)) *)
| Print (line : text)                 (* a line handed to sys.stdout by print *)
| TimeTime                            (* time.time() *)
| SendAll (data : bytes)              (* s.sendall(data) *)
| Sleep (secs : Z).                   (* time.sleep(secs) *)

(** How a call ends: it returns, it fails, or a [SIGINT] stops it.  The
    signals that arrive between two calls are those of [Process]. *)
Inductive outcome := Ok | Err | Intr.

(** What the world answers to one call: how the call ended, the wall clock
    (read by [time.time()] only), and the time in nanoseconds the call took
    beyond what it was asked to take. *)
Record reply := mk_reply {
  outcome_of : outcome;
  reading    : pyfloat;
  delay      : N
}.

(** A world answers the calls of one run in the order they are made.  The
    script has no other input, so the replies to the calls number 0, 1, 2,
    ... are all there is to an environment. *)
Definition world := nat -> reply.

(** Exceptions, under the names of the error taxonomy: a failed [connect] is
    a [ConnectionError], a failed [sendall] a [WriteError]. *)
Inductive exn :=
| ConnectionError | WriteError | OSError | NameError | KeyboardInterrupt.

Definition error_of (c : call) : exn :=
  match c with
  | Connect _ _ => ConnectionError
  | SendAll _ => WriteError
  | _ => OSError
  end.

Inductive socket_state := NoSocket | Opened | Connected | Closed.

Definition entry : Type := call * reply.

Record state := mk_state {
  log     : list entry;      (* the calls made so far, oldest first *)
  counter : option Z;        (* the variable [counter]; [None]: not bound *)
  sock    : socket_state
}.

Definition init : state := mk_state [] None NoSocket.

Definition record_call (c : call) (r : reply) (st : state) : state :=
  mk_state (log st ++ [(c, r)]) (counter st) (sock st).

Definition with_sock (s : socket_state) (st : state) : state :=
  mk_state (log st) (counter st) s.

Definition with_counter (c : Z) (st : state) : state :=
  mk_state (log st) (Some c) (sock st).

(** A computation returns, raises, or is still running when the observation
    ends. *)
Inductive res (A : Type) :=
| Done (a : A)
| Raise (e : exn)
| Running.
Arguments Done {A} a.
Arguments Raise {A} e.
Arguments Running {A}.

Definition M (A : Type) : Type := state -> res A * state.

Definition ret {A} (a : A) : M A := fun st => (Done a, st).

Definition bind {A B} (m : M A) (k : A -> M B) : M B :=
  fun st =>
    match m st with
    | (Done a, st') => k a st'
    | (Raise e, st') => (Raise e, st')
    | (Running, st') => (Running, st')
    end.

Notation "x <- m ;; k" := (bind m (fun x => k))
  (at level 61, m at next level, right associativity).
Notation "m ;; k" := (bind m (fun _ => k))
  (at level 61, right associativity).

Definition raise {A} (e : exn) : M A := fun st => (Raise e, st).

(** The time a call took.  A [time.sleep(secs)] that returns has taken at
    least [secs] seconds, as the library promises, and as much longer as the
    world says; every other call takes what the world says. *)
Definition elapsed (e : entry) : N :=
  match fst e, outcome_of (snd e) with
  | Sleep secs, Ok => Z.to_N secs * 10 ^ 9 + delay (snd e)
  | _, _ => delay (snd e)
  end.

Section Calls.
Variable w : world.

(** One call: the world's next reply is consumed and logged. *)
Definition invoke (c : call) : M reply :=
  fun st =>
    let r := w (List.length (log st)) in
    let st' := record_call c r st in
    match outcome_of r with
    | Ok => (Done r, st')
    | Err => (Raise (error_of c), st')
    | Intr => (Raise KeyboardInterrupt, st')
    end.

Definition connect (host : text) (port : Z) : M unit :=
  invoke (Connect host port) ;;
  fun st => (Done tt, with_sock Connected st).

Definition sendall (data : bytes) : M unit :=
  invoke (SendAll data) ;; ret tt.

Definition time_time : M pyfloat :=
  r <- invoke TimeTime ;; ret (reading r).

Definition sleep (secs : Z) : M unit :=
  invoke (Sleep secs) ;; ret tt.

(** [print(a, b, ...)]: the arguments separated by spaces, then a newline. *)
Definition print (args : list text) : M unit :=
  invoke (Print (String.concat " " args ++ String "010"%char "")) ;; ret tt.

Definition get_counter : M Z :=
  fun st =>
    match counter st with
    | Some c => (Done c, st)
    | None => raise NameError st
    end.

Definition set_counter (c : Z) : M unit :=
  fun st => (Done tt, with_counter c st).

(** [with <socket> as s: body], for a socket that has been made: the body
    runs, and on the way out, by return or by exception, the socket is
    closed and the exception goes on. *)
Definition with_socket (body : M unit) : M unit :=
  fun st =>
    match body (with_sock Opened st) with
    | (Running, st') => (Running, st')
    | (r, st') => (r, with_sock Closed st')
    end.

(** [while True: body], observed for [fuel] rounds. *)
Fixpoint while_true (fuel : nat) (body : M unit) : M unit :=
  match fuel with
  | O => fun st => (Running, st)
  | S fuel' => body ;; while_true fuel' body
  end.

End Calls.

End World.

(* ================================================================= *)
(** ** The script *)

Module Sender.
Import Text World.

Definition HOST : text := "127.0.0.1".
Definition PORT : Z := 6000.

(** [f"Hello {counter} at {time.time()}"]. *)
Definition message (counter : Z) (t : pyfloat) : text :=
  "Hello " ++ str_int counter ++ " at " ++ float_repr t.

Section Script.
Variable w : world.

(** Lines 12 to 16. *)
Definition iteration : M unit :=
  counter <- get_counter ;;
  t <- time_time w ;;
  let message := message counter t in
  sendall w (encode message) ;;
  print w ["Sent:"; message] ;;
  set_counter (counter + 1) ;;
  sleep w 1.

(** Lines 7 to 16. *)
Definition main (fuel : nat) : M unit :=
  with_socket (
    connect w HOST PORT ;;
    print w ["Connected to " ++ HOST ++ ":" ++ str_int PORT] ;;
    set_counter 0 ;;
    while_true fuel iteration).

(** A run of the script from the moment its socket exists, stopped only
    inside a call, and observed for [fuel] rounds of the loop. *)
Definition run (fuel : nat) : res unit * state := main fuel init.

End Script.

End Sender.

(* ================================================================= *)
(** ** What an observer reads off a log *)

Module Trace.
Import Text World Sender.

Definition ok (e : entry) : bool :=
  match outcome_of (snd e) with Ok => true | _ => false end.

Definition all_ok (l : list entry) : bool := forallb ok l.

(** The payloads handed to [sendall], in order. *)
Definition submitted (l : list entry) : list bytes :=
  flat_map (fun e => match fst e with SendAll d => [d] | _ => [] end) l.

(** The payloads whose [sendall] returned: the messages sent. *)
Definition delivered (l : list entry) : list bytes :=
  flat_map (fun e => match fst e with
                     | SendAll d => if ok e then [d] else []
                     | _ => []
                     end) l.

(** The values [time.time()] returned. *)
Definition readings (l : list entry) : list pyfloat :=
  flat_map (fun e => match fst e with
                     | TimeTime => if ok e then [reading (snd e)] else []
                     | _ => []
                     end) l.

(** The addresses [connect] was called with. *)
Definition connects (l : list entry) : list (text * Z) :=
  flat_map (fun e => match fst e with Connect h p => [(h, p)] | _ => [] end) l.

(** The arguments of the calls of [time.sleep] that returned. *)
Definition sleeps (l : list entry) : list Z :=
  flat_map (fun e => match fst e with
                     | Sleep s => if ok e then [s] else []
                     | _ => []
                     end) l.

Definition is_send (e : entry) : bool :=
  match fst e with SendAll _ => true | _ => false end.

Definition is_clock (e : entry) : bool :=
  match fst e with TimeTime => true | _ => false end.

Definition is_sleep (e : entry) : bool :=
  match fst e with Sleep _ => true | _ => false end.

Definition no_send (l : list entry) : bool :=
  forallb (fun e => negb (is_send e)) l.

(** The payloads a run hands to [sendall] when its clock reads [ts]. *)
Definition expected_payloads (ts : list pyfloat) : list bytes :=
  map (fun kt => encode (message (Z.of_nat (fst kt)) (snd kt)))
      (combine (seq 0 (List.length ts)) ts).

(** The time a stretch of the log took, in nanoseconds. *)
Definition duration (l : list entry) : N :=
  fold_right (fun e acc => (elapsed e + acc)%N) 0%N l.

(** The exception a call that did not return raises. *)
Definition exn_of (e : entry) : exn :=
  match outcome_of (snd e) with
  | Err => error_of (fst e)
  | _ => KeyboardInterrupt
  end.

Definition is_print (e : entry) : bool :=
  match fst e with Print _ => true | _ => false end.

(** The lines handed to [sys.stdout] by the calls of [print] that returned.
    They are in its buffer or beyond it: when they reach the terminal or the
    pipe is up to the buffering of the stream, which no call of the script
    controls. *)
Definition printed (l : list entry) : list text :=
  flat_map (fun e => match fst e with
                     | Print s => if ok e then [s] else []
                     | _ => []
                     end) l.

(** *** The log of a run in which every call returns

    Call number [0] is the [connect], call number [1] the first [print], and
    round [k] of the loop makes the calls number [2 + 4k] to [5 + 4k]. *)
Section Ideal.
Variable w : world.

Definition newline : text := String "010"%char "".

Definition at_connect : entry := (Connect HOST PORT, w 0%nat).
Definition at_hello : entry :=
  (Print ("Connected to 127.0.0.1:6000" ++ newline), w 1%nat).

Definition clock_of (k : nat) : pyfloat := reading (w (2 + 4 * k)%nat).
Definition payload_of (k : nat) : bytes :=
  encode (message (Z.of_nat k) (clock_of k)).

Definition at_time (k : nat) : entry := (TimeTime, w (2 + 4 * k)%nat).
Definition at_send (k : nat) : entry :=
  (SendAll (payload_of k), w (S (2 + 4 * k)%nat)).
Definition at_sent (k : nat) : entry :=
  (Print ("Sent: " ++ message (Z.of_nat k) (clock_of k) ++ newline),
   w (S (S (2 + 4 * k)%nat))).
Definition at_sleep (k : nat) : entry :=
  (Sleep 1, w (S (S (S (2 + 4 * k)%nat)))).

Definition round (k : nat) : list entry :=
  [at_time k; at_send k; at_sent k; at_sleep k].

Definition rounds (k : nat) : list entry :=
  ([at_connect; at_hello] ++ flat_map round (seq 0 k))%list.

(** The lines the script prints: one when it has connected, one for each
    message. *)
Definition greeting : text := "Connected to 127.0.0.1:6000" ++ newline.
Definition sent_line (k : nat) : text :=
  "Sent: " ++ message (Z.of_nat k) (clock_of k) ++ newline.

(** The ways a run can look after at most [fuel] rounds: still in the loop
    after [fuel] rounds, or stopped by the first call that did not return. *)
Inductive Ends (fuel : nat) : res unit -> list entry -> option Z -> Prop :=
| EndsRunning :
    all_ok (rounds fuel) = true ->
    Ends fuel Running (rounds fuel) (Some (Z.of_nat fuel))
| EndsConnect :
    ok at_connect = false ->
    Ends fuel (Raise (exn_of at_connect)) [at_connect] None
| EndsHello :
    ok at_connect = true -> ok at_hello = false ->
    Ends fuel (Raise (exn_of at_hello)) [at_connect; at_hello] None
| EndsTime k :
    (k < fuel)%nat -> all_ok (rounds k) = true ->
    ok (at_time k) = false ->
    Ends fuel (Raise (exn_of (at_time k)))
         (rounds k ++ [at_time k]) (Some (Z.of_nat k))
| EndsSend k :
    (k < fuel)%nat -> all_ok (rounds k) = true ->
    ok (at_time k) = true -> ok (at_send k) = false ->
    Ends fuel (Raise (exn_of (at_send k)))
         (rounds k ++ [at_time k; at_send k]) (Some (Z.of_nat k))
| EndsSent k :
    (k < fuel)%nat -> all_ok (rounds k) = true ->
    ok (at_time k) = true -> ok (at_send k) = true ->
    ok (at_sent k) = false ->
    Ends fuel (Raise (exn_of (at_sent k)))
         (rounds k ++ [at_time k; at_send k; at_sent k])
         (Some (Z.of_nat k))
| EndsSleep k :
    (k < fuel)%nat -> all_ok (rounds k) = true ->
    ok (at_time k) = true -> ok (at_send k) = true ->
    ok (at_sent k) = true -> ok (at_sleep k) = false ->
    Ends fuel (Raise (exn_of (at_sleep k)))
         (rounds k ++ round k) (Some (Z.of_nat k + 1)).

(** What the log may hold from the head of round [j] on: a prefix of the
    rounds [j], [j + 1], ..., in which a round is followed by more calls only
    if its [sleep] returned. *)
Inductive Schedule : nat -> list entry -> Prop :=
| SchNil j : Schedule j []
| SchTime j : Schedule j [at_time j]
| SchSend j : Schedule j [at_time j; at_send j]
| SchSent j : Schedule j [at_time j; at_send j; at_sent j]
| SchSleep j : Schedule j (round j)
| SchRound j l :
    ok (at_sleep j) = true -> Schedule (S j) l -> Schedule j (round j ++ l).

End Ideal.

End Trace.

(* ================================================================= *)
(** ** Some worlds *)

Module Worlds.
Import Text World.

(** 1700000000.25, a reading of late 2023. *)
Definition t_2023 : pyfloat :=
  mk_float false (list_ascii_of_string "170000000025") 10.

(** -86400.0: a clock set one day before the epoch. *)
Definition t_1969 : pyfloat :=
  mk_float true (list_ascii_of_string "864") 5.

(** Every call returns at once. *)
Definition calm : world := fun _ => mk_reply Ok t_2023 0.

(** Nobody listens: the [connect] fails. *)
Definition refusing : world := fun _ => mk_reply Err t_2023 0.

(** The peer goes away during the second round: the call number 7, the
    second [sendall], fails. *)
Definition hangup : world :=
  fun i => mk_reply (if Nat.eqb i 7 then Err else Ok) t_2023 3.

(** A slow world in which [SIGINT] arrives during the third [sleep]. *)
Definition interrupted : world :=
  fun i => mk_reply (if Nat.eqb i 13 then Intr else Ok) t_2023 250.

(** A world whose clock is set before the epoch. *)
Definition early : world := fun _ => mk_reply Ok t_1969 0.

(** Standard output is closed from the start: the first [print] fails. *)
Definition mute : world :=
  fun i => mk_reply (if Nat.eqb i 1 then Err else Ok) t_2023 0.

(** Standard output closes after the second message is sent: the call
    number 8, the [print] of round 1, fails. *)
Definition deaf : world :=
  fun i => mk_reply (if Nat.eqb i 8 then Err else Ok) t_2023 0.

End Worlds.

(* ================================================================= *)
(** ** The whole process

    [run] above is the script from the moment its socket exists, with
    every [SIGINT] taken inside a call.  The process itself starts one step
    earlier and can stop in two more ways: [socket.socket(...)] on line 7
    can fail, before [connect] is reached, and CPython raises
    [KeyboardInterrupt] between two bytecodes, so a signal can stop the
    script between two calls, when the calls made so far have all returned
    and the next one is never made. *)

Module Process.
Import Text World Sender Trace Worlds.

(** What happens in the gap before the call number [n]: nothing, or a
    signal.  Where the script executes a statement of its own in that gap
    ([counter = 0] before the call number 2, [counter += 1] before each
    [sleep]), the signal is taken before the statement ([Early]) or after it
    ([Late]); in the other gaps the two are the same. *)
Inductive signal := Quiet | Early | Late.

(** The environment of a process: how the creation of the socket ended, the
    signals between the calls, and the replies to the calls. *)
Record env := mk_env {
  socket_made : outcome;
  signals     : nat -> signal;
  replies     : world
}.

(** The signal in the gap the process is in. *)
Definition pending (e : env) (st : state) : signal :=
  signals e (List.length (log st)).

(** The bytecode boundaries of a gap: one where no statement of the script
    stands in it, one before and one after the statement otherwise. *)
Definition check (e : env) : M unit :=
  fun st =>
    match pending e st with
    | Quiet => (Done tt, st)
    | _ => raise KeyboardInterrupt st
    end.

Definition check_before (e : env) : M unit :=
  fun st =>
    match pending e st with
    | Early => raise KeyboardInterrupt st
    | _ => (Done tt, st)
    end.

Definition check_after (e : env) : M unit :=
  fun st =>
    match pending e st with
    | Late => raise KeyboardInterrupt st
    | _ => (Done tt, st)
    end.

Section Script.
Variable e : env.

(** Lines 12 to 16, with the boundaries between the calls. *)
Definition body : M unit :=
  check e ;;
  counter <- get_counter ;;
  t <- time_time (replies e) ;;
  let message := message counter t in
  check e ;;
  sendall (replies e) (encode message) ;;
  check e ;;
  print (replies e) ["Sent:"; message] ;;
  check_before e ;;
  set_counter (counter + 1) ;;
  check_after e ;;
  sleep (replies e) 1.

(** [socket.socket(socket.AF_INET, socket.SOCK_STREAM)] and the [with]
    block around the rest: when the socket cannot be made the block is not
    entered and there is no socket to close. *)
Definition with_new_socket (block : M unit) : M unit :=
  fun st =>
    match socket_made e with
    | Ok => with_socket block st
    | Err => raise OSError st
    | Intr => raise KeyboardInterrupt st
    end.

(** Lines 7 to 16. *)
Definition script (fuel : nat) : M unit :=
  with_new_socket (
    check e ;;
    connect (replies e) HOST PORT ;;
    check e ;;
    print (replies e) ["Connected to " ++ HOST ++ ":" ++ str_int PORT] ;;
    check_before e ;;
    set_counter 0 ;;
    while_true fuel body).

(** The process, observed for [fuel] rounds of the loop. *)
Definition process (fuel : nat) : res unit * state := script fuel init.

(** The exception of a socket that could not be made. *)
Definition exn_of_socket : exn :=
  match socket_made e with Err => OSError | _ => KeyboardInterrupt end.

(** The socket is made and no signal comes before the [connect]. *)
Definition started : Prop :=
  socket_made e = Ok /\ signals e 0%nat = Quiet.

(** The ways a process can look after at most [fuel] rounds: no socket; as
    a [run] of its replies, still in the loop or stopped by a call that did
    not return; or stopped by a signal in the gap before a call, with the
    calls made so far all returned. *)
Inductive Stops (fuel : nat) : res unit -> list entry -> option Z -> Prop :=
| StopsNoSocket :
    socket_made e <> Ok ->
    Stops fuel (Raise exn_of_socket) [] None
| StopsAsRun r l c :
    started ->
    Ends (replies e) fuel r l c ->
    Stops fuel r l c
| StopsBeforeConnect :
    socket_made e = Ok -> signals e 0%nat <> Quiet ->
    Stops fuel (Raise KeyboardInterrupt) [] None
| StopsBeforeHello :
    started -> ok (at_connect (replies e)) = true ->
    signals e 1%nat <> Quiet ->
    Stops fuel (Raise KeyboardInterrupt) [at_connect (replies e)] None
| StopsBeforeInit :
    started -> all_ok (rounds (replies e) 0) = true ->
    signals e 2%nat = Early ->
    Stops fuel (Raise KeyboardInterrupt) (rounds (replies e) 0) None
| StopsBeforeTime k :
    started ->
    (k < fuel)%nat -> all_ok (rounds (replies e) k) = true ->
    signals e (2 + 4 * k)%nat <> Quiet ->
    Stops fuel (Raise KeyboardInterrupt)
          (rounds (replies e) k) (Some (Z.of_nat k))
| StopsBeforeSend k :
    started ->
    (k < fuel)%nat -> all_ok (rounds (replies e) k) = true ->
    ok (at_time (replies e) k) = true ->
    signals e (S (2 + 4 * k)%nat) <> Quiet ->
    Stops fuel (Raise KeyboardInterrupt)
          (rounds (replies e) k ++ [at_time (replies e) k])
          (Some (Z.of_nat k))
| StopsBeforeSent k :
    started ->
    (k < fuel)%nat -> all_ok (rounds (replies e) k) = true ->
    ok (at_time (replies e) k) = true -> ok (at_send (replies e) k) = true ->
    signals e (S (S (2 + 4 * k)%nat)) <> Quiet ->
    Stops fuel (Raise KeyboardInterrupt)
          (rounds (replies e) k
             ++ [at_time (replies e) k; at_send (replies e) k])
          (Some (Z.of_nat k))
| StopsBeforeIncrement k :
    started ->
    (k < fuel)%nat -> all_ok (rounds (replies e) k) = true ->
    ok (at_time (replies e) k) = true -> ok (at_send (replies e) k) = true ->
    ok (at_sent (replies e) k) = true ->
    signals e (S (S (S (2 + 4 * k)%nat))) = Early ->
    Stops fuel (Raise KeyboardInterrupt)
          (rounds (replies e) k
             ++ [at_time (replies e) k; at_send (replies e) k;
                 at_sent (replies e) k])
          (Some (Z.of_nat k))
| StopsBeforeSleep k :
    started ->
    (k < fuel)%nat -> all_ok (rounds (replies e) k) = true ->
    ok (at_time (replies e) k) = true -> ok (at_send (replies e) k) = true ->
    ok (at_sent (replies e) k) = true ->
    signals e (S (S (S (2 + 4 * k)%nat))) = Late ->
    Stops fuel (Raise KeyboardInterrupt)
          (rounds (replies e) k
             ++ [at_time (replies e) k; at_send (replies e) k;
                 at_sent (replies e) k])
          (Some (Z.of_nat k + 1)).

End Script.

(** An environment without signals in which the socket is made. *)
Definition quiet (w : world) : env := mk_env Ok (fun _ => Quiet) w.

(** No descriptor is left: the socket cannot be made. *)
Definition no_descriptor : env := mk_env Err (fun _ => Quiet) calm.

(** A [SIGINT] between the second reading of the clock and the second
    [sendall]: the gap before the call number 7. *)
Definition stopped_before_send : env :=
  mk_env Ok (fun i => if Nat.eqb i 7 then Late else Quiet) calm.

End Process.

Import Text World Sender Trace Worlds.
Import Process.

(* ================================================================= *)
(** ** The script on sample worlds *)

Example repr_of_now : float_repr t_2023 = "1700000000.25".
Proof. reflexivity. Qed.

Example repr_of_whole_seconds :
  float_repr (mk_float false (list_ascii_of_string "17") 10) = "1700000000.0".
Proof. reflexivity. Qed.

Example repr_of_zero :
  float_repr (mk_float false (list_ascii_of_string "0") 1) = "0.0".
Proof. reflexivity. Qed.

Example repr_of_small :
  float_repr (mk_float false (list_ascii_of_string "1") (-3)) = "0.0001" /\
  float_repr (mk_float false (list_ascii_of_string "5") (-4)) = "5e-05".
Proof. split; reflexivity. Qed.

Example repr_of_large :
  float_repr (mk_float false (list_ascii_of_string "9999999999999998") 16)
    = "9999999999999998.0" /\
  float_repr (mk_float false (list_ascii_of_string "1") 17) = "1e+16" /\
  float_repr (mk_float false (list_ascii_of_string "15") 17) = "1.5e+16".
Proof. repeat split; reflexivity. Qed.

Example repr_before_epoch : float_repr t_1969 = "-86400.0".
Proof. reflexivity. Qed.

Example encode_beyond_ascii :
  encode (String (ascii_of_nat 233) "") = [xc3; xa9].
Proof. reflexivity. Qed.

Example calls_of_one_round :
  map fst (log (snd (run calm 1))) =
  [ Connect "127.0.0.1" 6000;
    Print ("Connected to 127.0.0.1:6000" ++ newline);
    TimeTime;
    SendAll (encode "Hello 0 at 1700000000.25");
    Print ("Sent: Hello 0 at 1700000000.25" ++ newline);
    Sleep 1 ].
Proof. reflexivity. Qed.

Example run_of_hangup :
  fst (run hangup 5) = Raise WriteError /\
  delivered (log (snd (run hangup 5)))
    = [encode "Hello 0 at 1700000000.25"] /\
  counter (snd (run hangup 5)) = Some 1 /\
  sock (snd (run hangup 5)) = Closed.
Proof. repeat split; reflexivity. Qed.

Example run_of_interrupted :
  fst (run interrupted 5) = Raise KeyboardInterrupt /\
  map seq_of_payload (delivered (log (snd (run interrupted 5))))
    = [Some 0; Some 1; Some 2] /\
  counter (snd (run interrupted 5)) = Some 3 /\
  sock (snd (run interrupted 5)) = Closed.
Proof. repeat split; reflexivity. Qed.

Example pattern_on_samples :
  fullmatch payload_pattern "Hello 12 at 1700000000.25" = true /\
  search payload_pattern "Hello 0 at 1e+16" = false /\
  search payload_pattern "Hello 0 at 5e-05" = false.
Proof. repeat split; reflexivity. Qed.

Example pattern_before_an_exponent :
  fullmatch payload_pattern "Hello 0 at 1.5e+16" = false /\
  search payload_pattern "Hello 0 at 1.5e+16" = true /\
  search payload_pattern "Hello 0 at -0.0" = false.
Proof. repeat split; reflexivity. Qed.

(* ================================================================= *)
(** ** The shape of a run *)

Section Shape.
Variable w : world.

Lemma rounds_S k : rounds w (S k) = (rounds w k ++ round w k)%list.
Proof.
  unfold rounds. rewrite seq_S, flat_map_app. reflexivity.
Qed.

Lemma length_rounds k : List.length (rounds w k) = (2 + 4 * k)%nat.
Proof.
  induction k as [|k IH]; [reflexivity|].
  rewrite rounds_S, length_app, IH. simpl. lia.
Qed.

Lemma all_ok_app l1 l2 : all_ok (l1 ++ l2) = all_ok l1 && all_ok l2.
Proof. apply forallb_app. Qed.

Lemma ok_outcome e : ok e = true <-> outcome_of (snd e) = Ok.
Proof. unfold ok. destruct (outcome_of (snd e)); split; congruence. Qed.

Lemma Ends_eq fuel r r' l l' c c' :
  Ends w fuel r l c -> r = r' -> l = l' -> c = c' -> Ends w fuel r' l' c'.
Proof. intros H -> -> ->. exact H. Qed.

Ltac use_outcomes :=
  unfold ok, exn_of, at_time, at_send, at_sent, at_sleep, at_connect,
    at_hello, payload_of, clock_of;
  cbn [fst snd error_of];
  repeat match goal with
         | H : outcome_of _ = _ |- _ => rewrite H
         end;
  try reflexivity.

Ltac next_call :=
  match goal with
  | |- context [outcome_of (w ?i)] =>
      let E := fresh "E" in
      destruct (outcome_of (w i)) eqn:E;
      cbv beta iota zeta;
      rewrite ?last_length, ?length_rounds
  end.

Ltac stops_with C :=
  split; [|reflexivity];
  intros fuel Hk Hall;
  eapply Ends_eq; [apply C; try eassumption| | |]; use_outcomes;
  unfold round; rewrite <- ?app_assoc; reflexivity.

(** One round of the loop from the head of round [k]. *)
Lemma iteration_ends k st :
  log st = rounds w k -> counter st = Some (Z.of_nat k) ->
  match iteration w st with
  | (Done _, st') =>
      all_ok (round w k) = true /\ log st' = rounds w (S k) /\
      counter st' = Some (Z.of_nat (S k)) /\ sock st' = sock st
  | (Raise e, st') =>
      (forall fuel, (k < fuel)%nat -> all_ok (rounds w k) = true ->
                    Ends w fuel (Raise e) (log st') (counter st')) /\
      sock st' = sock st
  | (Running, _) => False
  end.
Proof.
  destruct st as [l c s]. simpl. intros -> ->.
  cbv [iteration bind get_counter time_time sendall print sleep set_counter
       invoke ret record_call with_counter log counter sock].
  rewrite length_rounds.
  next_call; [|stops_with EndsTime ..].
  next_call; [|stops_with EndsSend ..].
  next_call; [|stops_with EndsSent ..].
  next_call; [|stops_with EndsSleep ..].
  - repeat split.
    + unfold all_ok, round. cbn [forallb]. use_outcomes.
    + rewrite rounds_S. unfold round. rewrite <- !app_assoc. reflexivity.
    + f_equal. lia.
Qed.

(** The loop, entered at the head of round [k] and observed for [fuel]
    more rounds. *)
Lemma while_true_ends fuel : forall k st,
  log st = rounds w k -> all_ok (rounds w k) = true ->
  counter st = Some (Z.of_nat k) ->
  let out := while_true fuel (iteration w) st in
  Ends w (k + fuel) (fst out) (log (snd out)) (counter (snd out)) /\
  sock (snd out) = sock st /\ fst out <> Done tt.
Proof.
  induction fuel as [|fuel IH]; intros k st Hlog Hall Hc; cbv zeta.
  - simpl. rewrite Nat.add_0_r, Hlog, Hc.
    repeat split; [now apply EndsRunning | discriminate].
  - cbn [while_true]. unfold bind.
    pose proof (iteration_ends k st Hlog Hc) as H.
    destruct (iteration w st) as [[[]|e|] st1].
    + destruct H as (Hr & Hlog1 & Hc1 & Hs1).
      assert (Hall1 : all_ok (rounds w (S k)) = true)
        by (rewrite rounds_S, all_ok_app, Hall, Hr; reflexivity).
      destruct (IH (S k) st1 Hlog1 Hall1 Hc1) as (HE & Hs & Hd).
      replace (k + S fuel)%nat with (S k + fuel)%nat by lia.
      repeat split; [exact HE | congruence | exact Hd].
    + destruct H as (HE & Hs). simpl.
      repeat split; [apply HE; [lia | exact Hall] | exact Hs | discriminate].
    + destruct H.
Qed.

Lemma hello_line :
  (String.concat " " ["Connected to " ++ HOST ++ ":" ++ str_int PORT]
     ++ String "010"%char "")%string
  = ("Connected to 127.0.0.1:6000" ++ newline)%string.
Proof. reflexivity. Qed.

Lemma run_unfold fuel :
  run w fuel =
  match outcome_of (w 0%nat), outcome_of (w 1%nat) with
  | Ok, Ok =>
      match while_true fuel (iteration w)
              (mk_state [at_connect w; at_hello w] (Some 0) Connected) with
      | (Running, st) => (Running, st)
      | (r, st) => (r, with_sock Closed st)
      end
  | Ok, _ =>
      (Raise (exn_of (at_hello w)),
       mk_state [at_connect w; at_hello w] None Closed)
  | _, _ =>
      (Raise (exn_of (at_connect w)), mk_state [at_connect w] None Closed)
  end.
Proof.
  unfold run, main, with_socket, connect, print, bind, invoke, ret,
    set_counter, exn_of, at_hello, at_connect.
  rewrite hello_line. simpl.
  destruct (outcome_of (w 0%nat)); try reflexivity. simpl.
  destruct (outcome_of (w 1%nat)); reflexivity.
Qed.

(** Every run looks one of the seven ways of [Ends], and its socket is
    connected while the loop runs and closed once the process has stopped. *)
Theorem run_ends fuel r st :
  run w fuel = (r, st) ->
  Ends w fuel r (log st) (counter st) /\
  sock st = match r with Running => Connected | _ => Closed end.
Proof.
  rewrite run_unfold.
  destruct (outcome_of (w 0%nat)) eqn:E0;
    [ destruct (outcome_of (w 1%nat)) eqn:E1 | |].
  - assert (Hall : all_ok (rounds w 0) = true)
      by (unfold all_ok, rounds; simpl; use_outcomes).
    pose proof (while_true_ends fuel 0
                  (mk_state [at_connect w; at_hello w] (Some 0) Connected)
                  eq_refl Hall eq_refl) as (HE & Hs & Hd).
    cbv zeta in *.
    destruct (while_true fuel (iteration w) _) as [[[]|e|] st1];
      cbn [fst snd] in *; intros [= <- <-]; cbn [log counter sock with_sock];
      [congruence | split; [exact HE | reflexivity] | split; [exact HE | exact Hs]].
  - intros [= <- <-]. split; [|reflexivity]. apply EndsHello; use_outcomes.
  - intros [= <- <-]. split; [|reflexivity]. apply EndsHello; use_outcomes.
  - intros [= <- <-]. split; [|reflexivity]. apply EndsConnect; use_outcomes.
  - intros [= <- <-]. split; [|reflexivity]. apply EndsConnect; use_outcomes.
Qed.

End Shape.

(* ================================================================= *)
(** ** Facts about text *)

Section TextFacts.

Lemma append_empty_inv (s1 s2 : text) :
  s1 ++ s2 = "" -> s1 = "" /\ s2 = "".
Proof. destruct s1; simpl; [auto | discriminate]. Qed.

Lemma append_empty_r (s : text) : s ++ "" = s.
Proof. induction s; simpl; congruence. Qed.

Lemma append_assoc (s1 s2 s3 : text) : (s1 ++ s2) ++ s3 = s1 ++ s2 ++ s3.
Proof. induction s1; simpl; congruence. Qed.

(** *** The matcher agrees with the language *)

Lemma nullable_complete r s : Matches r s -> s = "" -> nullable r = true.
Proof.
  induction 1; intros Hs; simpl; try discriminate; auto.
  - apply append_empty_inv in Hs as [-> ->].
    rewrite IHMatches1, IHMatches2; auto.
  - rewrite IHMatches; auto.
  - rewrite IHMatches; auto using orb_true_r.
Qed.

Lemma nullable_sound r : nullable r = true -> Matches r "".
Proof.
  induction r; simpl; intros H; try discriminate.
  - constructor.
  - apply andb_true_iff in H as [H1 H2].
    change "" with ("" ++ ""). constructor; auto.
  - apply orb_true_iff in H as [H|H]; [apply MAltL | apply MAltR]; auto.
  - constructor.
Qed.

Lemma deriv_complete r s :
  Matches r s -> forall c s', s = String c s' -> Matches (deriv c r) s'.
Proof.
  induction 1; intros a s' Hs; simpl; try discriminate.
  - injection Hs as -> <-. rewrite Ascii.eqb_refl. constructor.
  - injection Hs as -> <-. rewrite H. constructor.
  - injection Hs as -> <-. constructor.
  - destruct s1 as [|b s1]; simpl in Hs.
    + rewrite (nullable_complete _ _ H eq_refl).
      apply MAltR. eauto.
    + injection Hs as -> <-.
      assert (Matches (Cat (deriv a r1) r2) (s1 ++ s2))
        by (constructor; eauto).
      destruct (nullable r1); [apply MAltL|]; assumption.
  - apply MAltL. eauto.
  - apply MAltR. eauto.
  - destruct s1 as [|b s1]; simpl in Hs.
    + apply (IHMatches2 _ _ Hs).
    + injection Hs as -> <-. constructor; eauto.
Qed.

Lemma deriv_sound c r : forall s,
  Matches (deriv c r) s -> Matches r (String c s).
Proof.
  induction r; simpl; intros s H.
  - inversion H.
  - inversion H.
  - destruct (Ascii.eqb_spec c c0); inversion H; subst. constructor.
  - destruct (is_digit c) eqn:E; inversion H; subst. now constructor.
  - inversion H; subst. constructor.
  - assert (Hcat : forall s, Matches (Cat (deriv c r1) r2) s ->
                             Matches (Cat r1 r2) (String c s)).
    { intros s0 H0. inversion H0; subst.
      change (String c (s1 ++ s2)) with (String c s1 ++ s2).
      constructor; auto. }
    destruct (nullable r1) eqn:E; [|auto].
    inversion H; subst; [auto|].
    change (String c s) with ("" ++ String c s).
    constructor; auto using nullable_sound.
  - inversion H; subst; [apply MAltL | apply MAltR]; auto.
  - inversion H; subst.
    change (String c (s1 ++ s2)) with (String c s1 ++ s2).
    constructor; auto.
Qed.

Theorem fullmatch_spec r s : fullmatch r s = true <-> Matches r s.
Proof.
  revert r. induction s as [|c s IH]; intros r; simpl.
  - split; [apply nullable_sound | intros H; eapply nullable_complete; eauto].
  - rewrite IH. split; [apply deriv_sound|].
    intros H. eapply deriv_complete; eauto.
Qed.

Lemma Matches_Lit s : Matches (Lit s) s.
Proof.
  induction s as [|c s IH]; simpl; [constructor|].
  change (String c s) with (String c "" ++ s). constructor; [constructor|auto].
Qed.

Lemma Matches_digits_star l :
  forallb is_digit l = true -> Matches (Star Digit) (string_of_list_ascii l).
Proof.
  induction l as [|c l IH]; simpl; intros H; [constructor|].
  apply andb_true_iff in H as [Hc Hl].
  change (String c (string_of_list_ascii l))
    with (String c "" ++ string_of_list_ascii l).
  constructor; [now constructor | auto].
Qed.

Lemma Matches_digits l :
  forallb is_digit l = true -> l <> [] ->
  Matches (Plus Digit) (string_of_list_ascii l).
Proof.
  destruct l as [|c l]; [congruence|]. simpl. intros H _.
  apply andb_true_iff in H as [Hc Hl].
  change (String c (string_of_list_ascii l))
    with (String c "" ++ string_of_list_ascii l).
  constructor; [now constructor | now apply Matches_digits_star].
Qed.

(** *** [str(int)] *)

Lemma string_of_uint_digits d :
  all_digits (NilEmpty.string_of_uint d) = true.
Proof. unfold all_digits. induction d; simpl; auto. Qed.

Lemma string_of_uint_nonempty d :
  d <> Nil -> NilEmpty.string_of_uint d <> "".
Proof. destruct d; simpl; congruence. Qed.

Lemma str_int_digits k :
  0 <= k -> all_digits (str_int k) = true /\ str_int k <> "".
Proof.
  intros Hk. unfold str_int. destruct k as [|p|p]; [| |lia]; simpl.
  - split; [reflexivity | discriminate].
  - split; [apply string_of_uint_digits|].
    apply string_of_uint_nonempty, Unsigned.to_uint_nonnil.
Qed.

Lemma int_of_text_str_int k : int_of_text (str_int k) = Some k.
Proof.
  unfold int_of_text, str_int. rewrite NilEmpty.isi. simpl.
  now rewrite DecimalZ.of_to.
Qed.

Lemma Matches_digit_text s :
  all_digits s = true -> s <> "" -> Matches (Plus Digit) s.
Proof.
  intros Hd Hne. rewrite <- (string_of_list_ascii_of_string s).
  apply Matches_digits; [exact Hd|].
  destruct s; simpl; congruence.
Qed.

(** *** [repr(float)] *)

Lemma zeros_digits n : forallb is_digit (zeros n) = true.
Proof. unfold zeros. induction (Z.to_nat n); simpl; auto. Qed.

Lemma layout_digits ds decpt :
  forallb is_digit ds = true -> ds <> [] ->
  forallb is_digit (fst (layout ds decpt)) = true /\
  fst (layout ds decpt) <> [] /\
  forallb is_digit (snd (layout ds decpt)) = true.
Proof.
  intros Hd Hne. unfold layout.
  destruct (decpt <=? 0) eqn:E0; simpl.
  - repeat split; [discriminate|].
    now rewrite forallb_app, zeros_digits, Hd.
  - destruct (decpt <=? Z.of_nat (List.length ds)) eqn:E1; simpl.
    + pose proof (firstn_skipn (Z.to_nat decpt) ds) as Hsplit.
      rewrite <- Hsplit, forallb_app in Hd.
      apply andb_true_iff in Hd as [H1 H2].
      repeat split; auto.
      apply Z.leb_gt in E0.
      destruct ds as [|d ds]; [congruence|].
      destruct (Z.to_nat decpt) eqn:En; [lia | discriminate].
    + repeat split.
      * now rewrite forallb_app, zeros_digits, Hd.
      * destruct ds; [congruence | discriminate].
Qed.

Lemma float_repr_positional_parts t :
  positional t = true ->
  exists ip fp,
    float_repr t = string_of_list_ascii ip ++ "." ++ string_of_list_ascii fp /\
    forallb is_digit ip = true /\ ip <> [] /\
    forallb is_digit fp = true /\ fp <> [].
Proof.
  unfold positional, wf_float. intros H.
  apply andb_true_iff in H as [H H16]. apply andb_true_iff in H as [H H4].
  apply andb_true_iff in H as [H Hneg]. apply andb_true_iff in H as [H Hlen].
  apply negb_true_iff in Hneg, Hlen. apply Nat.eqb_neq in Hlen.
  apply Z.ltb_lt in H4. apply Z.leb_le in H16.
  assert (Hne : f_digits t <> [])
    by (destruct (f_digits t); simpl in *; congruence).
  unfold float_repr. rewrite Hneg.
  replace (f_decpt t <=? -4) with false by (symmetry; apply Z.leb_gt; lia).
  replace (16 <? f_decpt t) with false by (symmetry; apply Z.ltb_ge; lia).
  simpl orb. cbv iota.
  destruct (layout_digits (f_digits t) (f_decpt t) H Hne) as (Hi & Hin & Hf).
  destruct (layout (f_digits t) (f_decpt t)) as [ip fp]. simpl in Hi, Hin, Hf.
  exists ip, (match fp with [] => ["0"%char] | _ => fp end).
  repeat split; auto; destruct fp; auto; discriminate.
Qed.

Lemma float_repr_positional t :
  positional t = true ->
  Matches (Cat (Plus Digit) (Cat (Chr ".") (Plus Digit))) (float_repr t).
Proof.
  intros Ht.
  destruct (float_repr_positional_parts t Ht)
    as (ip & fp & -> & Hi & Hin & Hf & Hfn).
  constructor; [now apply Matches_digits|].
  change ("." ++ string_of_list_ascii fp)
    with (String "."%char "" ++ string_of_list_ascii fp).
  apply MCat; [constructor | now apply Matches_digits].
Qed.

Lemma message_matches k t :
  (0 <= k) -> positional t = true ->
  fullmatch payload_pattern (message k t) = true.
Proof.
  intros Hk Ht. apply fullmatch_spec. unfold payload_pattern, message.
  destruct (str_int_digits k Hk) as [Hd Hne].
  constructor; [apply Matches_Lit|].
  constructor; [now apply Matches_digit_text|].
  constructor; [apply Matches_Lit|].
  now apply float_repr_positional.
Qed.

(** *** The pattern holds for no other reading *)

Lemma occurrences_app c (s1 s2 : text) :
  occurrences c (s1 ++ s2) = (occurrences c s1 + occurrences c s2)%nat.
Proof. induction s1 as [|a s1 IH]; simpl; [reflexivity|]. rewrite IH. lia. Qed.

Lemma occurrences_digits c s :
  is_digit c = false -> all_digits s = true -> occurrences c s = O.
Proof.
  unfold all_digits. intros Hc. induction s as [|a s IH]; simpl; intros H.
  - reflexivity.
  - apply andb_true_iff in H as [Ha Hs]. rewrite (IH Hs).
    destruct (Ascii.eqb_spec a c); [congruence | reflexivity].
Qed.

Lemma all_digits_app (s1 s2 : text) :
  all_digits (s1 ++ s2) = all_digits s1 && all_digits s2.
Proof.
  unfold all_digits. induction s1 as [|a s1 IH]; simpl; [reflexivity|].
  now rewrite IH, andb_assoc.
Qed.

Lemma Matches_Lit_inv p : forall s, Matches (Lit p) s -> s = p.
Proof.
  induction p as [|c p IH]; simpl; intros s H.
  - now inversion H.
  - inversion H as [| | | |r1 r2 s1 s2 H1 H2| | | |]; subst.
    inversion H1; subst. simpl. f_equal. now apply IH.
Qed.

Lemma Matches_star_digits_inv r s :
  Matches r s -> r = Star Digit -> all_digits s = true.
Proof.
  induction 1 as [| | | | | | | |r s1 s2 H1 _ H2 IH2]; intros Hr;
    try discriminate; [reflexivity|].
  injection Hr as ->. rewrite all_digits_app, (IH2 eq_refl), andb_true_r.
  inversion H1; subst. unfold all_digits. simpl. now rewrite andb_true_r.
Qed.

Lemma Matches_plus_digits_inv s :
  Matches (Plus Digit) s -> all_digits s = true.
Proof.
  intros H. inversion H as [| | | |r1 r2 s1 s2 H1 H2| | | |]; subst.
  rewrite all_digits_app, (Matches_star_digits_inv _ _ H2 eq_refl), andb_true_r.
  inversion H1; subst. unfold all_digits. simpl. now rewrite andb_true_r.
Qed.

(** What the pattern matches: three runs of digits in a fixed frame. *)
Lemma payload_pattern_inv s :
  Matches payload_pattern s ->
  exists d1 d2 d3,
    s = "Hello " ++ d1 ++ " at " ++ d2 ++ "." ++ d3 /\
    all_digits d1 = true /\ all_digits d2 = true /\ all_digits d3 = true.
Proof.
  unfold payload_pattern. intros H.
  inversion H as [| | | |? ? h r1 Hh H1| | | |]; subst.
  inversion H1 as [| | | |? ? d1 r2 Hd1 H2| | | |]; subst.
  inversion H2 as [| | | |? ? a r3 Ha H3| | | |]; subst.
  inversion H3 as [| | | |? ? d2 r4 Hd2 H4| | | |]; subst.
  inversion H4 as [| | | |? ? pt d3 Hpt Hd3| | | |]; subst.
  apply (Matches_Lit_inv "Hello ") in Hh. apply (Matches_Lit_inv " at ") in Ha.
  subst. inversion Hpt; subst.
  exists d1, d2, d3. auto using Matches_plus_digits_inv.
Qed.

(** A text that matches holds one [e], that of [Hello], and no [-]. *)
Lemma payload_pattern_occurrences s :
  fullmatch payload_pattern s = true ->
  occurrences "e" s = 1%nat /\ occurrences "-" s = O.
Proof.
  intros H. apply fullmatch_spec, payload_pattern_inv in H
    as (d1 & d2 & d3 & -> & H1 & H2 & H3).
  rewrite !occurrences_app.
  rewrite (occurrences_digits "e" d1), (occurrences_digits "e" d2),
    (occurrences_digits "e" d3), (occurrences_digits "-" d1),
    (occurrences_digits "-" d2), (occurrences_digits "-" d3)
    by (assumption || reflexivity).
  split; reflexivity.
Qed.

(** A reading that is not positional is written with a [-] or an [e]. *)
Lemma float_repr_not_positional t :
  wf_float t = true -> positional t = false ->
  (1 <= occurrences "-" (float_repr t) + occurrences "e" (float_repr t))%nat.
Proof.
  unfold positional. intros Hwf Hpos. rewrite Hwf in Hpos. simpl in Hpos.
  unfold float_repr.
  destruct (f_neg t); [|simpl in Hpos].
  - destruct ((f_decpt t <=? -4) || (16 <? f_decpt t));
      destruct (layout _ _); simpl; lia.
  - replace ((f_decpt t <=? -4) || (16 <? f_decpt t)) with true.
    + destruct (layout _ _) as [ip fp].
      unfold exponent_suffix. rewrite !occurrences_app. simpl. lia.
    + symmetry. apply orb_true_iff.
      apply andb_false_iff in Hpos as [H|H];
        [left; apply Z.leb_le; apply Z.ltb_ge in H
        |right; apply Z.ltb_lt; apply Z.leb_gt in H]; lia.
Qed.

(** The payload text matches the pattern exactly for the positional
    readings. *)
Theorem message_matches_iff k t :
  0 <= k -> wf_float t = true ->
  (fullmatch payload_pattern (message k t) = true <-> positional t = true).
Proof.
  intros Hk Hwf. split; [|now apply message_matches].
  intros H. destruct (positional t) eqn:Hpos; [reflexivity|exfalso].
  apply payload_pattern_occurrences in H as [He Hm].
  destruct (str_int_digits k Hk) as [Hd _].
  pose proof (float_repr_not_positional t Hwf Hpos) as Hbad.
  unfold message in He, Hm.
  rewrite !occurrences_app in He, Hm.
  rewrite (occurrences_digits "e" (str_int k)) in He
    by (assumption || reflexivity).
  rewrite (occurrences_digits "-" (str_int k)) in Hm
    by (assumption || reflexivity).
  simpl in He, Hm. lia.
Qed.

(** *** Encoding *)

Lemma list_ascii_of_string_app (s1 s2 : text) :
  list_ascii_of_string (s1 ++ s2) =
  (list_ascii_of_string s1 ++ list_ascii_of_string s2)%list.
Proof. induction s1; simpl; congruence. Qed.

Lemma is_ascii_app (s1 s2 : text) :
  is_ascii (s1 ++ s2) = is_ascii s1 && is_ascii s2.
Proof. unfold is_ascii. now rewrite list_ascii_of_string_app, forallb_app. Qed.

Lemma is_digit_ascii c : is_digit c = true -> (code c <? 128)%N = true.
Proof.
  unfold is_digit. intros H. apply andb_true_iff in H as [_ H].
  apply N.leb_le in H. apply N.ltb_lt. lia.
Qed.

Lemma all_digits_ascii s : all_digits s = true -> is_ascii s = true.
Proof.
  unfold all_digits, is_ascii. intros H.
  apply forallb_forall. intros c Hc.
  apply is_digit_ascii. eapply forallb_forall in H; eauto.
Qed.

Lemma utf8_char_ascii c :
  (code c <? 128)%N = true -> utf8_char c = [byte_of_ascii c].
Proof.
  intros H. unfold utf8_char, byte_of_N, code in *. rewrite H.
  now rewrite ascii_N_embedding.
Qed.

(** An ASCII prefix goes through [encode] and back unchanged. *)
Lemma decode_encode_app (s1 s2 : text) :
  is_ascii s1 = true ->
  decode_ascii (encode (s1 ++ s2)) = s1 ++ decode_ascii (encode s2).
Proof.
  unfold is_ascii, encode, decode_ascii, string_of_list_byte.
  induction s1 as [|c s1 IH]; simpl; intros H; [reflexivity|].
  apply andb_true_iff in H as [Hc Hs].
  rewrite (utf8_char_ascii c Hc). simpl.
  now rewrite ascii_of_byte_of_ascii, IH.
Qed.

Lemma decode_encode s : is_ascii s = true -> decode_ascii (encode s) = s.
Proof.
  intros H. rewrite <- (append_empty_r s) at 1.
  rewrite decode_encode_app by exact H. apply append_empty_r.
Qed.

Lemma is_ascii_digit_list l :
  forallb is_digit l = true -> is_ascii (string_of_list_ascii l) = true.
Proof.
  intros H. apply all_digits_ascii. unfold all_digits.
  now rewrite list_ascii_of_string_of_list_ascii.
Qed.

Lemma positional_ascii t : positional t = true -> is_ascii (float_repr t) = true.
Proof.
  intros Ht.
  destruct (float_repr_positional_parts t Ht)
    as (ip & fp & -> & Hi & _ & Hf & _).
  now rewrite !is_ascii_app, !is_ascii_digit_list.
Qed.

Lemma message_ascii k t :
  0 <= k -> positional t = true -> is_ascii (message k t) = true.
Proof.
  intros Hk Ht. unfold message.
  rewrite !is_ascii_app, (positional_ascii t Ht).
  destruct (str_int_digits k Hk) as [Hd _].
  now rewrite (all_digits_ascii _ Hd).
Qed.

(** *** The sequence number read back from a payload *)

Lemma span_digits_app ds c rest :
  all_digits ds = true -> is_digit c = false ->
  span_digits (ds ++ String c rest) = (ds, String c rest).
Proof.
  unfold all_digits. induction ds as [|d ds IH]; simpl; intros Hd Hc.
  - now rewrite Hc.
  - apply andb_true_iff in Hd as [Hd1 Hd2].
    now rewrite Hd1, IH.
Qed.

Lemma seq_of_payload_message k t :
  0 <= k -> seq_of_payload (encode (message k t)) = Some k.
Proof.
  intros Hk. destruct (str_int_digits k Hk) as [Hd _].
  unfold seq_of_payload, message.
  replace ("Hello " ++ str_int k ++ " at " ++ float_repr t)
    with (("Hello " ++ str_int k ++ " at ") ++ float_repr t)
    by (now rewrite !append_assoc).
  rewrite decode_encode_app
    by (now rewrite !is_ascii_app, (all_digits_ascii _ Hd)).
  rewrite !append_assoc.
  change (strip_prefix "Hello " ("Hello " ++ ?x)) with (Some x).
  cbv beta iota.
  change (" at " ++ ?x) with (String " "%char ("at " ++ x)).
  rewrite span_digits_app by (exact Hd || reflexivity).
  change (strip_prefix " at " (String " "%char ("at " ++ ?x))) with (Some x).
  apply int_of_text_str_int.
Qed.

End TextFacts.

(* ================================================================= *)
(** ** What the log of a run shows *)

Section Projections.
Variable w : world.

Lemma submitted_app l1 l2 :
  submitted (l1 ++ l2) = (submitted l1 ++ submitted l2)%list.
Proof. apply flat_map_app. Qed.

Lemma delivered_app l1 l2 :
  delivered (l1 ++ l2) = (delivered l1 ++ delivered l2)%list.
Proof. apply flat_map_app. Qed.

Lemma readings_app l1 l2 :
  readings (l1 ++ l2) = (readings l1 ++ readings l2)%list.
Proof. apply flat_map_app. Qed.

Lemma sleeps_app l1 l2 : sleeps (l1 ++ l2) = (sleeps l1 ++ sleeps l2)%list.
Proof. apply flat_map_app. Qed.

Lemma connects_app l1 l2 :
  connects (l1 ++ l2) = (connects l1 ++ connects l2)%list.
Proof. apply flat_map_app. Qed.

Lemma all_ok_rounds_S k :
  all_ok (rounds w (S k)) = true ->
  all_ok (rounds w k) = true /\ ok (at_time w k) = true /\
  ok (at_send w k) = true /\ ok (at_sent w k) = true /\
  ok (at_sleep w k) = true.
Proof.
  rewrite rounds_S, all_ok_app. unfold round, all_ok at 2. cbn [forallb].
  intros H. repeat (apply andb_true_iff in H as [? H]). auto.
Qed.

Lemma submitted_rounds k :
  submitted (rounds w k) = map (payload_of w) (seq 0 k).
Proof.
  induction k as [|k IH]; [reflexivity|].
  rewrite rounds_S, submitted_app, IH, seq_S, map_app. reflexivity.
Qed.

Lemma connects_rounds k : connects (rounds w k) = [(HOST, PORT)].
Proof.
  induction k as [|k IH]; [reflexivity|].
  rewrite rounds_S, connects_app, IH. reflexivity.
Qed.

Lemma delivered_rounds k :
  all_ok (rounds w k) = true ->
  delivered (rounds w k) = map (payload_of w) (seq 0 k).
Proof.
  induction k as [|k IH]; [reflexivity|]. intros H.
  apply all_ok_rounds_S in H as (Hk & _ & Hs & _).
  rewrite rounds_S, delivered_app, IH, seq_S, map_app by exact Hk.
  unfold delivered at 1, round. cbn [flat_map fst at_time at_sent at_sleep].
  unfold at_send at 1. cbn [fst]. fold (at_send w k). rewrite Hs. reflexivity.
Qed.

Lemma readings_rounds k :
  all_ok (rounds w k) = true ->
  readings (rounds w k) = map (clock_of w) (seq 0 k).
Proof.
  induction k as [|k IH]; [reflexivity|]. intros H.
  apply all_ok_rounds_S in H as (Hk & Ht & _).
  rewrite rounds_S, readings_app, IH, seq_S, map_app by exact Hk.
  unfold readings at 1, round. cbn [flat_map fst at_send at_sent at_sleep].
  unfold at_time at 1. cbn [fst]. fold (at_time w k). rewrite Ht. reflexivity.
Qed.

Lemma sleeps_rounds k :
  all_ok (rounds w k) = true -> sleeps (rounds w k) = repeat 1 k.
Proof.
  induction k as [|k IH]; [reflexivity|]. intros H.
  apply all_ok_rounds_S in H as (Hk & _ & _ & _ & Hs).
  rewrite rounds_S, sleeps_app, IH by exact Hk.
  unfold sleeps at 1, round. cbn [flat_map fst at_time at_send at_sent].
  unfold at_sleep at 1. cbn [fst]. fold (at_sleep w k). rewrite Hs.
  change (S k) with (1 + k)%nat. rewrite Nat.add_comm, repeat_app. reflexivity.
Qed.

End Projections.

Ltac ends_cases w fuel :=
  let r := fresh "r" in
  let l := fresh "l" in
  let c := fresh "c" in
  let s := fresh "s" in
  let Hrun := fresh "Hrun" in
  let HE := fresh "HE" in
  let Hs := fresh "Hsock" in
  destruct (run w fuel) as [r [l c s]] eqn:Hrun;
  apply run_ends in Hrun; cbn [fst snd log counter sock] in Hrun |- *;
  destruct Hrun as [HE Hs]; inversion HE; subst; clear HE.

Ltac tail_proj :=
  rewrite ?submitted_app, ?delivered_app, ?readings_app, ?sleeps_app,
    ?connects_app, ?length_app;
  rewrite ?submitted_rounds, ?connects_rounds;
  rewrite ?delivered_rounds, ?readings_rounds, ?sleeps_rounds by assumption;
  unfold round in *;
  unfold at_connect, at_hello, at_time, at_send, at_sent, at_sleep in *;
  unfold delivered, submitted, readings, sleeps, connects;
  cbn [flat_map fst List.app];
  repeat match goal with H : ok _ = _ |- _ => rewrite H end;
  cbn [List.app].

Section Payloads.
Variable w : world.

(** The payloads and the clock readings of a run: round [k] reads the clock
    once and hands one payload to [sendall]; all of them but perhaps the last
    are sent. *)
Lemma run_payloads fuel :
  let l := log (snd (run w fuel)) in
  exists n m,
    (n <= m <= S n)%nat /\ (m <= fuel)%nat /\
    delivered l = map (payload_of w) (seq 0 n) /\
    submitted l = map (payload_of w) (seq 0 m) /\
    readings l = map (clock_of w) (seq 0 m).
Proof.
  cbv zeta. ends_cases w fuel.
  - exists fuel, fuel. tail_proj. repeat split; (lia || reflexivity).
  - exists 0%nat, 0%nat. tail_proj. repeat split; (lia || reflexivity).
  - exists 0%nat, 0%nat. tail_proj. repeat split; (lia || reflexivity).
  - exists k, k. tail_proj. rewrite !app_nil_r. repeat split; (lia || reflexivity).
  - exists k, (S k). tail_proj. rewrite seq_S, !map_app, !app_nil_r.
    repeat split; (lia || reflexivity).
  - exists (S k), (S k). tail_proj. rewrite seq_S, !map_app.
    repeat split; (lia || reflexivity).
  - exists (S k), (S k). tail_proj. rewrite seq_S, !map_app.
    repeat split; (lia || reflexivity).
Qed.

Lemma seq_of_payload_of k :
  seq_of_payload (payload_of w k) = Some (Z.of_nat k).
Proof. apply seq_of_payload_message. lia. Qed.

Lemma combine_map_r {A B} (g : A -> B) (l : list A) :
  combine l (map g l) = map (fun x => (x, g x)) l.
Proof. induction l; simpl; congruence. Qed.

Lemma expected_payloads_clock m :
  expected_payloads (map (clock_of w) (seq 0 m)) = map (payload_of w) (seq 0 m).
Proof.
  unfold expected_payloads.
  rewrite length_map, length_seq, combine_map_r, map_map. reflexivity.
Qed.

(** The payloads handed to [sendall] are a function of the clock readings. *)
Lemma submitted_expected fuel :
  let l := log (snd (run w fuel)) in
  submitted l = expected_payloads (readings l).
Proof.
  cbv zeta. destruct (run_payloads fuel) as (n & m & _ & _ & _ & Hs & Hr).
  rewrite Hs, Hr. symmetry. apply expected_payloads_clock.
Qed.

Lemma firstn_seq_le n : forall start m,
  (n <= m)%nat -> firstn n (seq start m) = seq start n.
Proof.
  induction n as [|n IH]; intros start m H; [reflexivity|].
  destruct m as [|m]; [lia|]. simpl. f_equal. apply IH. lia.
Qed.

(** The payloads sent are the first of those handed to [sendall]. *)
Lemma delivered_firstn fuel :
  let l := log (snd (run w fuel)) in
  delivered l = firstn (List.length (delivered l)) (submitted l).
Proof.
  cbv zeta. destruct (run_payloads fuel) as (n & m & Hnm & _ & Hd & Hs & _).
  rewrite Hd, Hs, length_map, length_seq, firstn_map, firstn_seq_le by lia.
  reflexivity.
Qed.

End Payloads.

(* ================================================================= *)
(** ** The properties of the specification *)

(** C1.  In every run the sequence numbers a receiver reads off the messages
    that were sent are, in the order of sending, 0, 1, ..., N-1, where N is
    the number of messages sent: the counter starts at zero, goes up by one
    with each message, and no number is skipped or used twice. *)
Theorem sequence_numbers_count_from_zero (w : world) (fuel : nat) :
  let sent := delivered (log (snd (run w fuel))) in
  map seq_of_payload sent =
  map (fun k => Some (Z.of_nat k)) (seq 0 (List.length sent)).
Proof.
  cbv zeta. destruct (run_payloads w fuel) as (n & m & _ & _ & Hd & _).
  rewrite Hd, length_map, length_seq, map_map.
  apply map_ext. intros k. apply seq_of_payload_of.
Qed.

(** C2 as stated fails: with the clock set one day before the epoch the
    first payload written is [Hello 0 at -86400.0], in which the pattern
    [Hello \d+ at \d+\.\d+] does not occur anywhere; so the payload does
    not match it as a whole either. *)
Lemma pattern_fails_before_epoch :
  ~ (forall (e : env) (fuel : nat) (p : bytes),
       (forall i, wf_float (reading (replies e i)) = true) ->
       In p (delivered (log (snd (process e fuel)))) ->
       search payload_pattern (decode_ascii p) = true).
Proof.
  intros H.
  specialize (H (quiet early) 1%nat (encode "Hello 0 at -86400.0")
                (fun _ => eq_refl) (or_introl eq_refl)).
  vm_compute in H. discriminate.
Qed.

(** C3.  When [connect] fails the run ends with [ConnectionError] after that
    one call: the clock was not read, no message was built, nothing was
    handed to [sendall], and the socket is closed. *)
Theorem failed_connect_sends_nothing (w : world) (fuel : nat) :
  outcome_of (w 0%nat) = Err ->
  fst (run w fuel) = Raise ConnectionError /\
  log (snd (run w fuel)) = [(Connect HOST PORT, w 0%nat)] /\
  readings (log (snd (run w fuel))) = [] /\
  submitted (log (snd (run w fuel))) = [] /\
  counter (snd (run w fuel)) = None /\
  sock (snd (run w fuel)) = Closed.
Proof.
  intros H. rewrite run_unfold, H. unfold exn_of, at_connect.
  cbn [fst snd log counter sock error_of]. rewrite H.
  repeat split.
Qed.

(** Witness for C3: nobody listens on the port. *)
Lemma failed_connect_sends_nothing_witness :
  outcome_of (refusing 0%nat) = Err /\
  fst (run refusing 5) = Raise ConnectionError /\
  submitted (log (snd (run refusing 5))) = [].
Proof.
  split; [reflexivity|].
  destruct (failed_connect_sends_nothing refusing 5 eq_refl)
    as (Hr & _ & _ & Hs & _).
  split; [exact Hr | exact Hs].
Defined.


Lemma calm_runs (n : nat) : fst (run calm n) = Running.
Proof.
  ends_cases calm n; try reflexivity;
    match goal with H : ok _ = false |- _ => discriminate H end.
Qed.

(** C8.  The counter is an integer without bound and it is exact.  In
    every run in which it is bound, its value lies between 0 and the number
    of rounds, it is the number of messages sent, or one less when the run
    stopped between a [sendall] and the increment that follows it, and it is
    the number of rounds while the loop runs.  No value is out of reach:
    for every [n], the run of [n] rounds in which no call fails ends with
    the counter at [n]. *)
Theorem counter_is_exact_and_unbounded :
  (forall (w : world) (fuel : nat) (c : Z),
     counter (snd (run w fuel)) = Some c ->
     let sent := Z.of_nat (List.length (delivered (log (snd (run w fuel))))) in
     0 <= c <= Z.of_nat fuel /\
     (c = sent \/ c + 1 = sent) /\
     (fst (run w fuel) = Running -> c = Z.of_nat fuel)) /\
  (forall n : nat, counter (snd (run calm n)) = Some (Z.of_nat n)).
Proof.
  assert (Hgen : forall (w : world) (fuel : nat) (c : Z),
     counter (snd (run w fuel)) = Some c ->
     let sent := Z.of_nat (List.length (delivered (log (snd (run w fuel))))) in
     0 <= c <= Z.of_nat fuel /\
     (c = sent \/ c + 1 = sent) /\
     (fst (run w fuel) = Running -> c = Z.of_nat fuel)).
  { intros w fuel c. cbv zeta.
    ends_cases w fuel; intros [= <-]; tail_proj;
      rewrite ?length_app, ?length_map, ?length_seq; cbn [List.length];
      repeat split; try lia; try discriminate. }
  split; [exact Hgen|].
  intros n. pose proof (calm_runs n) as Hrun.
  ends_cases calm n; try discriminate.
  reflexivity.
Qed.

(** Witness for C8: the peer goes away in the second round, after one
    increment. *)
Lemma counter_is_exact_and_unbounded_witness :
  counter (snd (run hangup 5)) = Some 1 /\
  0 <= 1 <= Z.of_nat 5 /\
  List.length (delivered (log (snd (run hangup 5)))) = 1%nat.
Proof.
  split; [reflexivity|].
  destruct (proj1 counter_is_exact_and_unbounded hangup 5%nat 1 eq_refl)
    as (Hb & _ & _).
  split; [exact Hb | reflexivity].
Defined.

(* ================================================================= *)
(** ** Where a call sits in the log *)

Section Positions.
Variable w : world.

Lemma all_ok_middle pre e post :
  all_ok (pre ++ e :: post) = true -> ok e = true.
Proof.
  rewrite all_ok_app. unfold all_ok at 2. cbn [forallb].
  intros H. apply andb_true_iff in H as [_ H].
  now apply andb_true_iff in H as [H _].
Qed.

(** A log whose calls all returned but the last holds one call that did not
    return: the last. *)
Lemma failure_is_last good bad : forall pre e post,
  (good ++ [bad])%list = (pre ++ e :: post)%list ->
  all_ok good = true -> ok e = false ->
  pre = good /\ e = bad /\ post = [].
Proof.
  induction good as [|g good IH]; intros pre e post Heq Hall He.
  - destruct pre as [|x pre]; simpl in Heq.
    + injection Heq as <- <-. auto.
    + injection Heq as _ Heq. destruct pre; discriminate.
  - simpl in Hall. apply andb_true_iff in Hall as [Hg Hall].
    destruct pre as [|x pre]; simpl in Heq.
    + injection Heq as <- _. congruence.
    + injection Heq as <- Heq.
      destruct (IH _ _ _ Heq Hall He) as (-> & -> & ->). auto.
Qed.

Lemma split_nil {A} (pre : list A) s post : (pre ++ s :: post)%list <> [].
Proof. destruct pre; discriminate. Qed.

(** Looking for a call of [sendall] in a log that starts with another call. *)
Lemma split_cons_other a L pre s post :
  (pre ++ s :: post)%list = a :: L ->
  is_send a = false -> is_send s = true ->
  exists pre', pre = a :: pre' /\ (pre' ++ s :: post)%list = L.
Proof.
  destruct pre as [|x pre]; simpl; intros [= -> <-] Ha Hs.
  - congruence.
  - eauto.
Qed.

Lemma split_cons (a : entry) L pre s post :
  (pre ++ s :: post)%list = a :: L ->
  (pre = [] /\ s = a /\ post = L) \/
  (exists pre', pre = a :: pre' /\ (pre' ++ s :: post)%list = L).
Proof.
  destruct pre as [|x pre]; simpl; intros [= -> <-]; eauto.
Qed.

(** The first call of [sendall] in a log that starts with one. *)
Lemma split_cons_send a L mid s post :
  (mid ++ s :: post)%list = a :: L ->
  is_send a = true -> no_send mid = true ->
  mid = [] /\ s = a /\ post = L.
Proof.
  destruct mid as [|x mid]; simpl; intros [= -> <-] Ha Hm; auto.
  rewrite Ha in Hm. discriminate.
Qed.

Lemma schedule_rounds n : forall j tl,
  all_ok (flat_map (round w) (seq j n)) = true ->
  Schedule w (j + n) tl ->
  Schedule w j (flat_map (round w) (seq j n) ++ tl).
Proof.
  induction n as [|n IH]; intros j tl Hall Htl.
  - now rewrite Nat.add_0_r in Htl.
  - cbn [seq flat_map] in *. rewrite all_ok_app in Hall.
    apply andb_true_iff in Hall as [Hr Hall].
    rewrite <- app_assoc. apply SchRound.
    + unfold round, all_ok in Hr. cbn [forallb] in Hr.
      repeat (apply andb_true_iff in Hr as [? Hr]). assumption.
    + apply IH; [exact Hall|]. now rewrite <- Nat.add_succ_comm in Htl.
Qed.

Lemma schedule_from_rounds k tl :
  all_ok (rounds w k) = true -> Schedule w k tl ->
  exists l, (rounds w k ++ tl)%list = at_connect w :: at_hello w :: l /\
            Schedule w 0 l.
Proof.
  intros Hall Htl. unfold rounds in *. rewrite all_ok_app in Hall.
  apply andb_true_iff in Hall as [_ Hall].
  exists (flat_map (round w) (seq 0 k) ++ tl)%list. split.
  - rewrite <- app_assoc. reflexivity.
  - now apply schedule_rounds.
Qed.

(** The log of a run is the [connect], and then, if that returned, the
    first [print] and a prefix of the rounds. *)
Lemma run_schedule fuel :
  log (snd (run w fuel)) = [at_connect w] \/
  exists l, log (snd (run w fuel)) = at_connect w :: at_hello w :: l /\
            Schedule w 0 l.
Proof.
  ends_cases w fuel.
  - right. rewrite <- (app_nil_r (rounds w fuel)).
    apply schedule_from_rounds; [assumption | constructor].
  - now left.
  - right. exists []. split; [reflexivity | constructor].
  - right. apply schedule_from_rounds; [assumption | constructor].
  - right. apply schedule_from_rounds; [assumption | constructor].
  - right. apply schedule_from_rounds; [assumption | constructor].
  - right. apply schedule_from_rounds; [assumption | apply SchSleep].
Qed.

End Positions.

Section Gaps.
Variable w : world.

Ltac other H :=
  let pre' := fresh "pre" in
  apply split_cons_other in H as (pre' & -> & H);
  [| reflexivity | assumption].

Ltac nothing_left H := exfalso; exact (split_nil _ _ _ H).

Lemma no_send_cons e l : is_send e = false -> no_send (e :: l) = no_send l.
Proof. unfold no_send. cbn [forallb]. now intros ->. Qed.

(** From the head of round [j], the next call of [sendall] is that of round
    [j] and only the reading of the clock comes before it. *)
Lemma schedule_next_send j l :
  Schedule w j l ->
  forall pre s post,
    (pre ++ s :: post)%list = l -> is_send s = true -> no_send pre = true ->
    pre = [at_time w j] /\ s = at_send w j.
Proof.
  intros Hl. destruct Hl; intros pre s post Heq Hs Hpre;
    unfold round in Heq; cbn [List.app] in Heq.
  - nothing_left Heq.
  - other Heq. nothing_left Heq.
  - other Heq. rewrite !no_send_cons in Hpre by reflexivity.
    apply split_cons_send in Heq as (-> & -> & _); auto.
  - other Heq. rewrite !no_send_cons in Hpre by reflexivity.
    apply split_cons_send in Heq as (-> & -> & _); auto.
  - other Heq. rewrite !no_send_cons in Hpre by reflexivity.
    apply split_cons_send in Heq as (-> & -> & _); auto.
  - other Heq. rewrite !no_send_cons in Hpre by reflexivity.
    apply split_cons_send in Heq as (-> & -> & _); auto.
Qed.

(** Between one call of [sendall] and the next lie the [print] of the
    payload, a [sleep] that returned, and the next reading of the clock. *)
Lemma schedule_gap j l :
  Schedule w j l ->
  forall pre s1 mid s2 post,
    (pre ++ s1 :: mid ++ s2 :: post)%list = l ->
    is_send s1 = true -> is_send s2 = true -> no_send mid = true ->
    exists i, mid = [at_sent w i; at_sleep w i; at_time w (S i)] /\
              ok (at_sleep w i) = true.
Proof.
  induction 1 as [j|j|j|j|j|j l Hok Hl IH];
    intros pre s1 mid s2 post Heq H1 H2 Hm;
    unfold round in Heq; cbn [List.app] in Heq.
  - nothing_left Heq.
  - other Heq. nothing_left Heq.
  - other Heq. apply split_cons in Heq as [(-> & -> & Heq)|(pre' & -> & Heq)];
      nothing_left Heq.
  - other Heq. apply split_cons in Heq as [(-> & -> & Heq)|(pre' & -> & Heq)].
    + other Heq. nothing_left Heq.
    + other Heq. nothing_left Heq.
  - other Heq.
    apply split_cons in Heq as [(-> & -> & Heq)|(pre' & -> & Heq)].
    + other Heq. other Heq. nothing_left Heq.
    + other Heq. other Heq. nothing_left Heq.
  - other Heq.
    apply split_cons in Heq as [(-> & -> & Heq)|(pre' & -> & Heq)].
    + other Heq. other Heq. rewrite !no_send_cons in Hm by reflexivity.
      destruct (schedule_next_send _ _ Hl _ _ _ Heq H2 Hm) as [-> ->].
      eauto.
    + other Heq. other Heq. eapply IH; eauto.
Qed.

End Gaps.

(** C4.  A call of [sendall] that fails is the last call of the run: the
    run ends with [WriteError] and a closed socket, nothing is retried, no
    clock is read, no message is built or sent and no [sleep] is made after
    it; every call before it returned; and the counter keeps the sequence
    number of the message that failed, which is the number of messages
    sent. *)
Theorem failed_write_is_final (w : world) (fuel : nat)
    (pre : list entry) (p : bytes) (rp : reply) (post : list entry) :
  log (snd (run w fuel)) = (pre ++ (SendAll p, rp) :: post)%list ->
  outcome_of rp = Err ->
  fst (run w fuel) = Raise WriteError /\
  post = [] /\
  all_ok pre = true /\
  counter (snd (run w fuel)) = Some (Z.of_nat (List.length (delivered pre))) /\
  seq_of_payload p = Some (Z.of_nat (List.length (delivered pre))) /\
  sock (snd (run w fuel)) = Closed.
Proof.
  intros Hlog Herr.
  assert (Hbad : ok (SendAll p, rp) = false)
    by (unfold ok; cbn [snd]; now rewrite Herr).
  revert Hlog. ends_cases w fuel; intros Hlog.
  - rewrite Hlog in *.
    match goal with H : all_ok _ = true |- _ => apply all_ok_middle in H end.
    congruence.
  - apply (failure_is_last [] (at_connect w)) in Hlog as (_ & [=] & _);
      auto.
  - apply (failure_is_last [at_connect w] (at_hello w)) in Hlog
      as (_ & [=] & _); auto.
    unfold all_ok. cbn [forallb]. now rewrite andb_true_r.
  - apply failure_is_last in Hlog as (_ & [=] & _); auto.
  - change (rounds w k ++ [at_time w k; at_send w k])%list
      with (rounds w k ++ [at_time w k] ++ [at_send w k])%list in Hlog.
    rewrite app_assoc in Hlog.
    assert (Hgood : all_ok (rounds w k ++ [at_time w k]) = true).
    { rewrite all_ok_app. unfold all_ok at 2. cbn [forallb].
      now rewrite andb_true_r, andb_true_iff. }
    apply failure_is_last in Hlog as (-> & Hsend & ->); auto.
    unfold at_send in Hsend. apply pair_equal_spec in Hsend as [Hp ->].
    injection Hp as ->.
    assert (Hlen : List.length (delivered (rounds w k ++ [at_time w k])) = k).
    { rewrite delivered_app, delivered_rounds, length_app, length_map,
        length_seq by assumption. simpl. lia. }
    rewrite Hlen, seq_of_payload_of.
    unfold exn_of, at_send. cbn [fst snd error_of]. rewrite Herr.
    repeat split. exact Hgood.
  - change (rounds w k ++ [at_time w k; at_send w k; at_sent w k])%list
      with (rounds w k ++ [at_time w k; at_send w k] ++ [at_sent w k])%list
      in Hlog.
    rewrite app_assoc in Hlog.
    apply failure_is_last in Hlog as (_ & [=] & _); auto.
    rewrite all_ok_app. unfold all_ok at 2. cbn [forallb].
    rewrite andb_true_r, !andb_true_iff. auto.
  - unfold round in Hlog.
    change (rounds w k ++ [at_time w k; at_send w k; at_sent w k; at_sleep w k])%list
      with (rounds w k ++ [at_time w k; at_send w k; at_sent w k]
              ++ [at_sleep w k])%list in Hlog.
    rewrite app_assoc in Hlog.
    apply failure_is_last in Hlog as (_ & [=] & _); auto.
    rewrite all_ok_app. unfold all_ok at 2. cbn [forallb].
    rewrite andb_true_r, !andb_true_iff. auto.
Qed.

(** Witness for C4: the peer goes away before the second message. *)
Lemma failed_write_is_final_witness :
  let l := log (snd (run hangup 5)) in
  l = (firstn 7 l ++
       [(SendAll (encode "Hello 1 at 1700000000.25"), hangup 7%nat)])%list /\
  fst (run hangup 5) = Raise WriteError /\
  counter (snd (run hangup 5)) = Some 1.
Proof.
  cbv zeta.
  assert (Hlog : log (snd (run hangup 5)) =
                 (firstn 7 (log (snd (run hangup 5))) ++
                  (SendAll (encode "Hello 1 at 1700000000.25"), hangup 7%nat)
                  :: [])%list) by reflexivity.
  destruct (failed_write_is_final hangup 5 _ _ _ _ Hlog eq_refl)
    as (Hr & _ & _ & _ & _ & _).
  split; [exact Hlog|]. split; [exact Hr | reflexivity].
Defined.

Lemma sleeps_all_one (w : world) (fuel : nat) :
  let l := log (snd (run w fuel)) in
  sleeps l = repeat 1 (List.length (sleeps l)).
Proof.
  cbv zeta. ends_cases w fuel; tail_proj;
    rewrite ?app_nil_r, ?length_app, ?repeat_length;
    cbn [List.length]; rewrite ?Nat.add_0_r; reflexivity.
Qed.

(** C5.  Every [sleep] of a run is of one second, and between one call of
    [sendall] and the next the run prints the payload, makes exactly one
    such [sleep], which returns, and reads the clock: when the second call
    starts, at least one second (10^9 ns) has passed since the first one
    ended. *)
Theorem one_second_between_sends (w : world) (fuel : nat)
    (pre : list entry) (s1 : entry) (mid : list entry) (s2 : entry)
    (post : list entry) :
  log (snd (run w fuel)) = (pre ++ s1 :: mid ++ s2 :: post)%list ->
  is_send s1 = true -> is_send s2 = true -> no_send mid = true ->
  (exists e_print e_sleep e_clock,
     mid = [e_print; e_sleep; e_clock] /\
     fst e_sleep = Sleep 1 /\ ok e_sleep = true /\
     is_clock e_clock = true) /\
  sleeps mid = [1] /\
  (10 ^ 9 <= duration mid)%N /\
  sleeps (log (snd (run w fuel)))
    = repeat 1 (List.length (sleeps (log (snd (run w fuel))))).
Proof.
  intros Hlog H1 H2 Hm.
  assert (Hgap : exists i, mid = [at_sent w i; at_sleep w i; at_time w (S i)]
                           /\ ok (at_sleep w i) = true).
  { destruct (run_schedule w fuel) as [Hc | (l & Hl & Hsch)];
      rewrite Hlog in *; symmetry in Hlog.
    - apply split_cons_other in Hc as (pre' & -> & Hc);
        [|reflexivity | assumption].
      exfalso. exact (split_nil _ _ _ Hc).
    - apply split_cons_other in Hl as (pre1 & -> & Hl);
        [|reflexivity | assumption].
      apply split_cons_other in Hl as (pre2 & -> & Hl);
        [|reflexivity | assumption].
      eapply schedule_gap; eauto. }
  destruct Hgap as (i & -> & Hok).
  assert (Hsl : sleeps [at_sent w i; at_sleep w i; at_time w (S i)] = [1]).
  { unfold sleeps. cbn [flat_map fst at_sent at_time List.app].
    unfold at_sleep at 1. cbn [fst]. fold (at_sleep w i). now rewrite Hok. }
  repeat split.
  - exists (at_sent w i), (at_sleep w i), (at_time w (S i)). repeat split.
    exact Hok.
  - exact Hsl.
  - unfold duration. cbn [fold_right].
    assert (He : elapsed (at_sleep w i)
                 = (10 ^ 9 + delay (snd (at_sleep w i)))%N).
    { apply ok_outcome in Hok. unfold elapsed. rewrite Hok. reflexivity. }
    rewrite He. lia.
  - apply sleeps_all_one.
Qed.

(** Witness for C5: the two messages of a quiet run of two rounds. *)
Lemma one_second_between_sends_witness :
  let l := log (snd (run calm 2)) in
  l = (firstn 3 l ++ at_send calm 0 ::
       [at_sent calm 0; at_sleep calm 0; at_time calm 1] ++
       at_send calm 1 :: skipn 8 l)%list /\
  (10 ^ 9 <= duration [at_sent calm 0; at_sleep calm 0; at_time calm 1])%N.
Proof.
  cbv zeta.
  assert (Hlog : log (snd (run calm 2)) =
                 (firstn 3 (log (snd (run calm 2))) ++ at_send calm 0 ::
                  [at_sent calm 0; at_sleep calm 0; at_time calm 1] ++
                  at_send calm 1 :: skipn 8 (log (snd (run calm 2))))%list)
    by reflexivity.
  split; [exact Hlog|].
  apply (one_second_between_sends calm 2 _ _ _ _ _ Hlog);
    reflexivity.
Defined.

(** C9.  The first call of [sendall] comes right after the [connect], the
    first [print] and the first reading of the clock, and carries the
    sequence number 0: no [sleep] comes before it.  A run never counts more
    returned [sleep]s than messages sent, and at most one fewer; after [k]
    full rounds, exactly [k] messages have been sent and [k] sleeps made. *)
Theorem first_message_without_delay (w : world) (fuel : nat) :
  let l := log (snd (run w fuel)) in
  (forall pre s post,
     l = (pre ++ s :: post)%list -> is_send s = true -> no_send pre = true ->
     pre = [(Connect HOST PORT, w 0%nat);
            (Print ("Connected to 127.0.0.1:6000" ++ newline), w 1%nat);
            (TimeTime, w 2%nat)] /\
     fst s = SendAll (encode (message 0 (reading (w 2%nat)))) /\
     forallb (fun e => negb (is_sleep e)) pre = true) /\
  (List.length (sleeps l) <= List.length (delivered l)
                          <= S (List.length (sleeps l)))%nat /\
  (fst (run w fuel) = Running ->
   List.length (delivered l) = fuel /\ List.length (sleeps l) = fuel).
Proof.
  cbv zeta. split; [|split].
  - intros pre s post Hlog Hs Hpre.
    destruct (run_schedule w fuel) as [Hc | (l & Hl & Hsch)];
      rewrite Hlog in *.
    + apply split_cons_other in Hc as (pre' & -> & Hc);
        [|reflexivity | assumption].
      exfalso. exact (split_nil _ _ _ Hc).
    + apply split_cons_other in Hl as (pre1 & -> & Hl);
        [|reflexivity | assumption].
      apply split_cons_other in Hl as (pre2 & -> & Hl);
        [|reflexivity | assumption].
      rewrite !no_send_cons in Hpre by reflexivity.
      destruct (schedule_next_send w _ _ Hsch _ _ _ Hl Hs Hpre) as [-> ->].
      repeat split.
  - ends_cases w fuel; tail_proj;
      rewrite ?length_app, ?length_map, ?length_seq, ?repeat_length;
      cbn [List.length]; lia.
  - ends_cases w fuel; try discriminate. intros _. tail_proj.
    rewrite length_map, length_seq, repeat_length. auto.
Qed.

(** Witness for C9: a quiet run of two rounds. *)
Lemma first_message_without_delay_witness :
  let l := log (snd (run calm 2)) in
  l = (firstn 3 l ++ at_send calm 0 :: skipn 4 l)%list /\
  fst (at_send calm 0) = SendAll (encode "Hello 0 at 1700000000.25") /\
  List.length (delivered l) = 2%nat.
Proof.
  cbv zeta.
  destruct (first_message_without_delay calm 2) as (Hfirst & _ & Hfull).
  split; [reflexivity|]. split.
  - apply (Hfirst (firstn 3 (log (snd (run calm 2)))) (at_send calm 0)
                  (skipn 4 (log (snd (run calm 2))))); reflexivity.
  - apply Hfull. reflexivity.
Defined.

(* ================================================================= *)
(** ** Further properties of the script *)

(** *** How a run stops *)

Section Stops.
Variable w : world.

Lemma all_ok_rounds_replies k :
  all_ok (rounds w k) = true <->
  (forall i, (i < 2 + 4 * k)%nat -> outcome_of (w i) = Ok).
Proof.
  induction k as [|k IH].
  - unfold rounds, all_ok. cbn [seq flat_map List.app forallb].
    rewrite andb_true_r, andb_true_iff, !ok_outcome.
    unfold at_connect, at_hello. cbn [snd]. split.
    + intros [H0 H1] i Hi.
      destruct i as [|[|i]]; [exact H0 | exact H1 | lia].
    + intros H. split; apply H; lia.
  - split.
    + intros H. apply all_ok_rounds_S in H as (Hk & Ht & Hs & Hp & Hz).
      apply ok_outcome in Ht, Hs, Hp, Hz.
      unfold at_time, at_send, at_sent, at_sleep in *. cbn [snd] in *.
      intros i Hi.
      destruct (Nat.lt_ge_cases i (2 + 4 * k)) as [Hlt|Hge];
        [now apply IH|].
      assert (Hcase : i = (2 + 4 * k)%nat \/ i = S (2 + 4 * k) \/
                      i = S (S (2 + 4 * k)) \/ i = S (S (S (2 + 4 * k))))
        by lia.
      destruct Hcase as [->|[->|[->| ->]]]; assumption.
    + intros H. rewrite rounds_S, all_ok_app.
      apply andb_true_iff. split.
      * apply IH. intros i Hi. apply H. lia.
      * unfold round, all_ok. cbn [forallb].
        rewrite andb_true_r, !andb_true_iff, !ok_outcome.
        unfold at_time, at_send, at_sent, at_sleep. cbn [snd].
        repeat split; apply H; lia.
Qed.

(** A run either still runs, and then all its calls returned, or its log
    is calls that returned followed by one that did not, which decides the
    exception; in the second case the counter, when bound, is the number of
    messages sent, or one less if the call that did not return is the
    [print] of a message. *)
Lemma run_stops fuel :
  let st := snd (run w fuel) in
  (fst (run w fuel) = Running /\ all_ok (log st) = true) \/
  (exists good bad,
     log st = (good ++ [bad])%list /\ all_ok good = true /\ ok bad = false /\
     fst (run w fuel) = Raise (exn_of bad) /\ sock st = Closed /\
     forall c, counter st = Some c ->
       if is_print bad
       then c + 1 = Z.of_nat (List.length (delivered (log st)))
       else c = Z.of_nat (List.length (delivered (log st)))).
Proof.
  cbv zeta. ends_cases w fuel.
  - left. auto.
  - right. exists [], (at_connect w). repeat split; auto. discriminate.
  - right. exists [at_connect w], (at_hello w). repeat split; auto.
    + unfold all_ok. cbn [forallb]. now rewrite andb_true_r.
    + discriminate.
  - right. exists (rounds w k), (at_time w k). repeat split; auto.
    intros c [= <-]. tail_proj. cbn [is_print fst].
    rewrite ?length_app, ?length_map, ?length_seq. cbn [List.length]. lia.
  - right. exists (rounds w k ++ [at_time w k])%list, (at_send w k).
    repeat split; auto.
    + now rewrite <- app_assoc.
    + rewrite all_ok_app. unfold all_ok at 2. cbn [forallb].
      now rewrite andb_true_r, andb_true_iff.
    + intros c [= <-]. tail_proj. cbn [is_print fst].
      rewrite ?length_app, ?length_map, ?length_seq. cbn [List.length]. lia.
  - right. exists (rounds w k ++ [at_time w k; at_send w k])%list, (at_sent w k).
    repeat split; auto.
    + now rewrite <- app_assoc.
    + rewrite all_ok_app. unfold all_ok at 2. cbn [forallb].
      rewrite andb_true_r, !andb_true_iff. auto.
    + intros c [= <-]. tail_proj. cbn [is_print fst].
      rewrite ?length_app, ?length_map, ?length_seq. cbn [List.length]. lia.
  - right.
    exists (rounds w k ++ [at_time w k; at_send w k; at_sent w k])%list,
           (at_sleep w k).
    repeat split; auto.
    + unfold round. now rewrite <- app_assoc.
    + rewrite all_ok_app. unfold all_ok at 2. cbn [forallb].
      rewrite andb_true_r, !andb_true_iff. auto.
    + intros c [= <-]. tail_proj. cbn [is_print fst].
      rewrite ?length_app, ?length_map, ?length_seq. cbn [List.length]. lia.
Qed.

End Stops.

(** X2.  No exception is caught: whichever call does not return, be it a
    failure or an interrupt, it is the last call of the run; every call
    before it returned, the run ends with the exception of that call
    ([KeyboardInterrupt] for an interrupt, otherwise the error of the call),
    and the socket is closed. *)
Theorem any_failure_is_final (w : world) (fuel : nat)
    (pre : list entry) (e : entry) (post : list entry) :
  log (snd (run w fuel)) = (pre ++ e :: post)%list ->
  ok e = false ->
  post = [] /\ all_ok pre = true /\
  fst (run w fuel) = Raise (exn_of e) /\
  (outcome_of (snd e) = Intr -> fst (run w fuel) = Raise KeyboardInterrupt) /\
  (outcome_of (snd e) = Err -> fst (run w fuel) = Raise (error_of (fst e))) /\
  sock (snd (run w fuel)) = Closed.
Proof.
  intros Hlog He.
  destruct (run_stops w fuel)
    as [[_ Hall] | (good & bad & Hgb & Hgood & Hbad & Hr & Hs & _)].
  - rewrite Hlog in Hall. apply all_ok_middle in Hall. congruence.
  - rewrite Hgb in Hlog.
    apply failure_is_last in Hlog as (-> & -> & ->); auto.
    repeat split; auto; intros Ho; rewrite Hr; unfold exn_of; now rewrite Ho.
Qed.

(** Witness for X2: a [SIGINT] during the third [sleep]. *)
Lemma any_failure_is_final_witness :
  let l := log (snd (run interrupted 5)) in
  l = (firstn 13 l ++ [at_sleep interrupted 2])%list /\
  ok (at_sleep interrupted 2) = false /\
  fst (run interrupted 5) = Raise KeyboardInterrupt /\
  sock (snd (run interrupted 5)) = Closed.
Proof.
  cbv zeta.
  assert (Hlog : log (snd (run interrupted 5)) =
                 (firstn 13 (log (snd (run interrupted 5)))
                  ++ at_sleep interrupted 2 :: [])%list) by reflexivity.
  destruct (any_failure_is_final interrupted 5 _ _ _ Hlog eq_refl)
    as (_ & _ & _ & Hi & _ & Hs).
  split; [exact Hlog|]. split; [reflexivity|].
  split; [apply Hi; reflexivity | exact Hs].
Defined.

(** X3.  When the connection is made but the line that reports it cannot be
    printed, the run stops there with that error: the clock is not read,
    nothing is handed to [sendall], and the socket is closed. *)
Theorem failed_greeting_sends_nothing (w : world) (fuel : nat) :
  outcome_of (w 0%nat) = Ok -> outcome_of (w 1%nat) = Err ->
  fst (run w fuel) = Raise OSError /\
  log (snd (run w fuel)) =
    [(Connect HOST PORT, w 0%nat);
     (Print ("Connected to 127.0.0.1:6000" ++ newline), w 1%nat)] /\
  readings (log (snd (run w fuel))) = [] /\
  submitted (log (snd (run w fuel))) = [] /\
  counter (snd (run w fuel)) = None /\
  sock (snd (run w fuel)) = Closed.
Proof.
  intros H0 H1. rewrite run_unfold, H0, H1. unfold exn_of, at_hello.
  cbn [fst snd log counter sock error_of]. rewrite H1.
  repeat split.
Qed.

(** Witness for X3: standard output is closed. *)
Lemma failed_greeting_sends_nothing_witness :
  outcome_of (mute 0%nat) = Ok /\ outcome_of (mute 1%nat) = Err /\
  fst (run mute 4) = Raise OSError /\
  submitted (log (snd (run mute 4))) = [].
Proof.
  split; [reflexivity|]. split; [reflexivity|].
  destruct (failed_greeting_sends_nothing mute 4 eq_refl eq_refl)
    as (Hr & _ & _ & Hs & _).
  split; [exact Hr | exact Hs].
Defined.

(** X4.  When a run has stopped on a call that did not return, the counter,
    if bound, is the number of messages sent, except when that call is the
    [print] of a message: then the message was sent and not counted, and
    the counter is one less. *)
Theorem counter_when_stopped (w : world) (fuel : nat)
    (good : list entry) (bad : entry) (c : Z) :
  log (snd (run w fuel)) = (good ++ [bad])%list ->
  ok bad = false ->
  counter (snd (run w fuel)) = Some c ->
  let sent := Z.of_nat (List.length (delivered (log (snd (run w fuel))))) in
  (is_print bad = true -> c + 1 = sent) /\
  (is_print bad = false -> c = sent).
Proof.
  intros Hlog Hbad Hc. cbv zeta.
  destruct (run_stops w fuel)
    as [[_ Hall] | (good' & bad' & Hgb & Hgood & Hbad' & _ & _ & Hcount)].
  - rewrite Hlog in Hall. apply all_ok_middle in Hall. congruence.
  - assert (Heq : (good' ++ [bad'])%list = (good ++ bad :: [])%list)
      by (rewrite <- Hgb; exact Hlog).
    apply failure_is_last in Heq as (_ & -> & _); auto.
    specialize (Hcount c Hc).
    destruct (is_print bad'); split; intros; congruence.
Qed.

(** Witness for X4: standard output closes after the second message is
    sent. *)
Lemma counter_when_stopped_witness :
  let l := log (snd (run deaf 4)) in
  l = (firstn 8 l ++ [at_sent deaf 1])%list /\
  counter (snd (run deaf 4)) = Some 1 /\
  1 + 1 = Z.of_nat (List.length (delivered l)).
Proof.
  cbv zeta.
  assert (Hlog : log (snd (run deaf 4)) =
                 (firstn 8 (log (snd (run deaf 4))) ++ [at_sent deaf 1])%list)
    by reflexivity.
  split; [exact Hlog|]. split; [reflexivity|].
  apply (counter_when_stopped deaf 4 _ _ 1 Hlog eq_refl eq_refl).
  reflexivity.
Defined.

(** *** Standard output *)

Section Stdout.
Variable w : world.

Lemma printed_app l1 l2 :
  printed (l1 ++ l2) = (printed l1 ++ printed l2)%list.
Proof. apply flat_map_app. Qed.

Lemma printed_rounds k :
  all_ok (rounds w k) = true ->
  printed (rounds w k) = greeting :: map (sent_line w) (seq 0 k).
Proof.
  induction k as [|k IH]; intros H.
  - pose proof (proj1 (all_ok_rounds_replies w 0) H 1%nat) as H1.
    unfold printed, rounds, at_connect, at_hello, ok.
    cbn [seq flat_map List.app fst snd map].
    now rewrite H1 by lia.
  - apply all_ok_rounds_S in H as (Hk & _ & _ & Hp & _).
    rewrite rounds_S, printed_app, IH, seq_S, map_app by exact Hk.
    unfold printed at 1, round. cbn [flat_map fst at_time at_send at_sleep].
    unfold at_sent at 1. cbn [fst]. fold (at_sent w k). rewrite Hp.
    reflexivity.
Qed.

End Stdout.

Lemma nth_error_map_seq {A} (f : nat -> A) (n k : nat) (x : A) :
  nth_error (map f (seq 0 n)) k = Some x -> (k < n)%nat /\ x = f k.
Proof.
  rewrite nth_error_map, nth_error_seq.
  destruct (Nat.ltb_spec k n); [|discriminate].
  cbn [option_map Nat.add]. intros [= <-]. auto.
Qed.

Lemma nth_error_map_seq_lt {A} (f : nat -> A) (n k : nat) :
  (k < n)%nat -> nth_error (map f (seq 0 n)) k = Some (f k).
Proof.
  intros H. rewrite nth_error_map, nth_error_seq.
  apply Nat.ltb_lt in H. now rewrite H.
Qed.

(** *** What the receiver can read *)

Lemma decode_utf8_char c (rest : bytes) :
  decode_utf8 (utf8_char c ++ rest)%list
  = option_map (String c) (decode_utf8 rest).
Proof.
  destruct c as [[] [] [] [] [] [] [] []]; reflexivity.
Qed.

(** Decoding undoes encoding, for every text. *)
Lemma decode_utf8_encode s : decode_utf8 (encode s) = Some s.
Proof.
  unfold encode. induction s as [|c s IH]; [reflexivity|].
  cbn [list_ascii_of_string flat_map].
  now rewrite decode_utf8_char, IH.
Qed.

(** X6.  Every payload handed to [sendall] is well-formed UTF-8, and a
    receiver that decodes it gets the text of the message, with the sequence
    number of the round and the clock reading of the round, whatever that
    reading is. *)
Theorem payload_decodes_to_message (w : world) (fuel k : nat) (p : bytes) :
  let l := log (snd (run w fuel)) in
  nth_error (submitted l) k = Some p ->
  exists t,
    nth_error (readings l) k = Some t /\
    decode_utf8 p = Some (message (Z.of_nat k) t).
Proof.
  cbv zeta. destruct (run_payloads w fuel) as (n & m & _ & _ & _ & Hs & Hr).
  rewrite Hs, Hr. intros Hp. apply nth_error_map_seq in Hp as [Hlt ->].
  exists (clock_of w k). rewrite nth_error_map_seq_lt by lia.
  split; [reflexivity | apply decode_utf8_encode].
Qed.

(** Witness for X6: the payload of a clock set before the epoch. *)
Lemma payload_decodes_to_message_witness :
  nth_error (submitted (log (snd (run early 2)))) 1
    = Some (encode "Hello 1 at -86400.0") /\
  decode_utf8 (encode "Hello 1 at -86400.0") = Some "Hello 1 at -86400.0".
Proof.
  split; [reflexivity|].
  destruct (payload_decodes_to_message early 2 1 _ eq_refl) as (t & Ht & Hd).
  assert (Et : t_1969 = t)
    by (change (Some t_1969 = Some t) in Ht; now injection Ht).
  subst t. exact Hd.
Defined.

(** *** Plain ASCII *)

Lemma exponent_suffix_ascii e : is_ascii (exponent_suffix e) = true.
Proof.
  unfold exponent_suffix.
  destruct (str_int_digits (Z.abs e) (Z.abs_nonneg e)) as [Hd _].
  rewrite !is_ascii_app, (all_digits_ascii _ Hd).
  destruct (e <? 0), (Z.abs e <? 10); reflexivity.
Qed.

Lemma float_repr_ascii t : wf_float t = true -> is_ascii (float_repr t) = true.
Proof.
  unfold wf_float. intros H. apply andb_true_iff in H as [Hd Hlen].
  apply negb_true_iff, Nat.eqb_neq in Hlen.
  assert (Hne : f_digits t <> [])
    by (destruct (f_digits t); simpl in *; congruence).
  unfold float_repr. cbv zeta.
  destruct ((f_decpt t <=? -4) || (16 <? f_decpt t)).
  - destruct (layout_digits (f_digits t) 1 Hd Hne) as (Hi & _ & Hf).
    destruct (layout (f_digits t) 1) as [ip fp]. cbn [fst snd] in Hi, Hf.
    rewrite !is_ascii_app, exponent_suffix_ascii, (is_ascii_digit_list _ Hi).
    destruct (f_neg t), fp; try reflexivity;
      now rewrite is_ascii_app, (is_ascii_digit_list _ Hf).
  - destruct (layout_digits (f_digits t) (f_decpt t) Hd Hne) as (Hi & _ & Hf).
    destruct (layout (f_digits t) (f_decpt t)) as [ip fp].
    cbn [fst snd] in Hi, Hf.
    rewrite !is_ascii_app, (is_ascii_digit_list _ Hi).
    destruct (f_neg t), fp; try reflexivity;
      now rewrite (is_ascii_digit_list _ Hf).
Qed.

Lemma encode_ascii s :
  is_ascii s = true ->
  encode s = list_byte_of_string s /\
  forallb (fun b => (Byte.to_N b <? 128)%N) (encode s) = true.
Proof.
  unfold is_ascii, encode, list_byte_of_string.
  induction s as [|c s IH]; cbn [list_ascii_of_string flat_map map forallb];
    intros H; [auto|].
  apply andb_true_iff in H as [Hc Hs]. destruct (IH Hs) as [IH1 IH2].
  rewrite (utf8_char_ascii c Hc). cbn [List.app forallb].
  rewrite IH1 in *. split; [reflexivity|].
  rewrite IH2, andb_true_r.
  revert Hc. unfold code.
  destruct c as [[] [] [] [] [] [] [] []]; intros Hc;
    solve [reflexivity | discriminate Hc].
Qed.

(** X7.  When the clock readings are well formed, every payload is plain
    7-bit ASCII: it has one byte for each character of the message, that
    byte is the character's code, and no byte has its high bit set. *)
Theorem payload_is_plain_ascii (w : world) (fuel k : nat) (p : bytes) :
  let l := log (snd (run w fuel)) in
  (forall i, wf_float (reading (w i)) = true) ->
  nth_error (submitted l) k = Some p ->
  exists t,
    nth_error (readings l) k = Some t /\
    p = list_byte_of_string (message (Z.of_nat k) t) /\
    List.length p = String.length (message (Z.of_nat k) t) /\
    forallb (fun b => (Byte.to_N b <? 128)%N) p = true.
Proof.
  cbv zeta. intros Hwf.
  destruct (run_payloads w fuel) as (n & m & _ & _ & _ & Hs & Hr).
  rewrite Hs, Hr. intros Hp. apply nth_error_map_seq in Hp as [Hlt ->].
  exists (clock_of w k). rewrite nth_error_map_seq_lt by lia.
  assert (Ha : is_ascii (message (Z.of_nat k) (clock_of w k)) = true).
  { unfold message.
    destruct (str_int_digits (Z.of_nat k) (Nat2Z.is_nonneg k)) as [Hd _].
    rewrite !is_ascii_app, (all_digits_ascii _ Hd), float_repr_ascii;
      [reflexivity | apply Hwf]. }
  destruct (encode_ascii _ Ha) as [He Hb]. unfold payload_of.
  repeat split; try assumption.
  rewrite He. unfold list_byte_of_string.
  rewrite length_map. clear.
  induction (message (Z.of_nat k) (clock_of w k)) as [|c s IH];
    cbn; congruence.
Qed.

(** Witness for X7: a payload with an exponent in its timestamp. *)
Lemma payload_is_plain_ascii_witness :
  (forall i, wf_float (reading (early i)) = true) /\
  nth_error (submitted (log (snd (run early 1)))) 0
    = Some (encode "Hello 0 at -86400.0") /\
  List.length (encode "Hello 0 at -86400.0") = 19%nat.
Proof.
  split; [intros i; reflexivity|]. split; [reflexivity|].
  destruct (payload_is_plain_ascii early 1 0 _ (fun _ => eq_refl) eq_refl)
    as (t & Ht & _ & Hlen & _).
  assert (Et : t_1969 = t)
    by (change (Some t_1969 = Some t) in Ht; now injection Ht).
  subst t. exact Hlen.
Defined.

(** *** Telling messages apart *)

Lemma NoDup_map_injective {A B} (f : A -> B) (l : list A) :
  (forall x y, f x = f y -> x = y) -> NoDup l -> NoDup (map f l).
Proof.
  intros Hinj. induction 1 as [|x l Hx Hl IH]; cbn [map]; constructor.
  - intros Hin. apply in_map_iff in Hin as (y & Hy & Hin).
    apply Hinj in Hy. now subst y.
  - exact IH.
Qed.

(** X8.  No payload is handed to [sendall] twice in a run, even when the
    clock stands still: the sequence number tells any two apart. *)
Theorem payloads_are_distinct (w : world) (fuel : nat) :
  NoDup (submitted (log (snd (run w fuel)))).
Proof.
  destruct (run_payloads w fuel) as (n & m & _ & _ & _ & Hs & _).
  rewrite Hs. apply NoDup_map_injective; [|apply seq_NoDup].
  intros x y Hxy.
  assert (H : Some (Z.of_nat x) = Some (Z.of_nat y))
    by (rewrite <- !(seq_of_payload_of w), Hxy; reflexivity).
  injection H. lia.
Qed.

(** X9.  The two fields of a message can be read back from its text: the
    sequence number, and the text of the timestamp as [repr] wrote it.  So
    two messages with the same text have the same number and timestamps
    written alike. *)
Theorem message_fields_read_back (k : Z) (t : pyfloat) :
  0 <= k ->
  parse_message (message k t) = Some (k, float_repr t) /\
  (forall k' t', 0 <= k' -> message k t = message k' t' ->
                 k = k' /\ float_repr t = float_repr t').
Proof.
  assert (Hparse : forall k t, 0 <= k ->
            parse_message (message k t) = Some (k, float_repr t)).
  { clear. intros k t Hk. destruct (str_int_digits k Hk) as [Hd Hne].
    unfold parse_message, message.
    change (strip_prefix "Hello " ("Hello " ++ ?x)) with (Some x).
    cbv beta iota.
    change (" at " ++ ?x) with (String " "%char ("at " ++ x)).
    rewrite span_digits_app by (exact Hd || reflexivity).
    change (strip_prefix " at " (String " "%char ("at " ++ ?x)))
      with (Some x).
    rewrite int_of_text_str_int.
    destruct (str_int k); [congruence | reflexivity]. }
  intros Hk. split; [now apply Hparse|].
  intros k' t' Hk' Heq.
  pose proof (Hparse k t Hk) as H1. rewrite Heq, (Hparse k' t' Hk') in H1.
  now injection H1.
Qed.

(** Witness for X9: the message number 12 at a reading of 2023. *)
Lemma message_fields_read_back_witness :
  0 <= 12 /\
  parse_message "Hello 12 at 1700000000.25" = Some (12, "1700000000.25").
Proof.
  split; [lia|].
  apply (proj1 (message_fields_read_back 12 t_2023 ltac:(lia))).
Defined.

(** *** The pace of a run *)

Lemma duration_app l1 l2 :
  duration (l1 ++ l2) = (duration l1 + duration l2)%N.
Proof.
  unfold duration. induction l1 as [|e l1 IH]; cbn [List.app fold_right].
  - reflexivity.
  - rewrite IH. lia.
Qed.

Lemma duration_rounds (w : world) k :
  all_ok (rounds w k) = true ->
  (N.of_nat k * 1000000000 <= duration (rounds w k))%N.
Proof.
  induction k as [|k IH]; intros H; [cbn; lia|].
  apply all_ok_rounds_S in H as (Hk & _ & _ & _ & Hs).
  specialize (IH Hk). rewrite rounds_S, duration_app.
  assert (Hr : (1000000000 <= duration (round w k))%N).
  { unfold round, duration. cbn [fold_right].
    assert (He : elapsed (at_sleep w k)
                 = (1000000000 + delay (snd (at_sleep w k)))%N).
    { apply ok_outcome in Hs. unfold elapsed. rewrite Hs. reflexivity. }
    rewrite He. lia. }
  lia.
Qed.

(** X10.  The script sends at most one message a second: a run in which
    [n] calls of [sleep] have returned has lasted at least [n] seconds, and
    one that has sent [n] messages at least [n - 1] seconds. *)
Theorem one_message_a_second (w : world) (fuel : nat) :
  let l := log (snd (run w fuel)) in
  (N.of_nat (List.length (sleeps l)) * 10 ^ 9 <= duration l)%N /\
  (N.of_nat (List.length (delivered l)) * 10 ^ 9 <= duration l + 10 ^ 9)%N.
Proof.
  cbv zeta. change (10 ^ 9)%N with 1000000000%N.
  ends_cases w fuel;
    try match goal with
        | H : all_ok (rounds _ ?k) = true |- _ =>
            pose proof (duration_rounds _ _ H)
        end;
    rewrite ?duration_app; tail_proj;
    rewrite ?length_app, ?length_map, ?length_seq, ?repeat_length;
    cbn [List.length]; lia.
Qed.

(** *** The order of the calls *)

Lemma rounds_split (w : world) k fuel :
  (k < fuel)%nat ->
  exists rest, rounds w fuel = (rounds w k ++ round w k ++ rest)%list.
Proof.
  induction fuel as [|f IH]; intros Hk; [lia|].
  rewrite rounds_S.
  destruct (Nat.eq_dec k f) as [->|Hne].
  - exists []. now rewrite app_nil_r.
  - destruct IH as [rest Hrest]; [lia|].
    exists (rest ++ round w f)%list. now rewrite Hrest, <- !app_assoc.
Qed.

(* ================================================================= *)
(** ** The shape of a process *)

Section ProcessShape.
Variable e : env.

Lemma Stops_eq fuel r r' l l' c c' :
  Stops e fuel r l c -> r = r' -> l = l' -> c = c' -> Stops e fuel r' l' c'.
Proof. intros H -> -> ->. exact H. Qed.

Ltac facts :=
  unfold ok, exn_of, at_time, at_send, at_sent, at_sleep, at_connect,
    at_hello, payload_of, clock_of;
  cbn [fst snd error_of];
  repeat match goal with
         | H : outcome_of _ = _ |- _ => rewrite H
         end;
  try reflexivity.

Ltac lists := unfold round; rewrite <- ?app_assoc; reflexivity.

Ltac next_reply :=
  match goal with
  | |- context [outcome_of (replies e ?i)] =>
      let E := fresh "E" in
      destruct (outcome_of (replies e i)) eqn:E;
      cbv beta iota zeta;
      rewrite ?last_length, ?length_rounds
  end.

Ltac next_signal :=
  match goal with
  | |- context [signals e ?i] =>
      let G := fresh "G" in
      destruct (signals e i) eqn:G;
      cbv beta iota zeta;
      rewrite ?last_length, ?length_rounds;
      rewrite ?G; cbv beta iota zeta;
      rewrite ?last_length, ?length_rounds
  end.

Ltac by_call C :=
  split; [|reflexivity];
  intros fuel Hsock Hk Hall;
  apply StopsAsRun; [exact Hsock|];
  eapply Ends_eq; [apply C; try eassumption| | |]; facts; lists.

Ltac by_signal C :=
  split; [|reflexivity];
  intros fuel Hsock Hk Hall;
  eapply Stops_eq;
    [apply C; try eassumption; first [congruence | facts]| | |];
  first [reflexivity | lists | f_equal; lia].

(** One round of the loop from the head of round [k]. *)
Lemma body_stops k st :
  log st = rounds (replies e) k -> counter st = Some (Z.of_nat k) ->
  match body e st with
  | (Done _, st') =>
      all_ok (round (replies e) k) = true /\
      log st' = rounds (replies e) (S k) /\
      counter st' = Some (Z.of_nat (S k)) /\ sock st' = sock st
  | (Raise x, st') =>
      (forall fuel, started e -> (k < fuel)%nat ->
                    all_ok (rounds (replies e) k) = true ->
                    Stops e fuel (Raise x) (log st') (counter st')) /\
      sock st' = sock st
  | (Running, _) => False
  end.
Proof.
  destruct st as [l c s]. simpl. intros -> ->.
  cbv [body bind check check_before check_after pending raise get_counter
       time_time sendall print sleep set_counter invoke ret record_call
       with_counter log counter sock].
  rewrite length_rounds.
  next_signal; [|by_signal StopsBeforeTime ..].
  next_reply; [|by_call EndsTime ..].
  next_signal; [|by_signal StopsBeforeSend ..].
  next_reply; [|by_call EndsSend ..].
  next_signal; [|by_signal StopsBeforeSent ..].
  next_reply; [|by_call EndsSent ..].
  next_signal;
    [|by_signal StopsBeforeIncrement|by_signal StopsBeforeSleep].
  next_reply; [|by_call EndsSleep ..].
  repeat split.
  - unfold all_ok, round. cbn [forallb]. facts.
  - rewrite rounds_S. lists.
  - f_equal. lia.
Qed.

(** The loop, entered at the head of round [k] and observed for [fuel]
    more rounds. *)
Lemma loop_stops fuel : forall k st,
  started e ->
  log st = rounds (replies e) k -> all_ok (rounds (replies e) k) = true ->
  counter st = Some (Z.of_nat k) ->
  let out := while_true fuel (body e) st in
  Stops e (k + fuel) (fst out) (log (snd out)) (counter (snd out)) /\
  sock (snd out) = sock st /\ fst out <> Done tt.
Proof.
  induction fuel as [|fuel IH]; intros k st Hsock Hlog Hall Hc; cbv zeta.
  - simpl. rewrite Nat.add_0_r, Hlog, Hc.
    repeat split; [|discriminate].
    apply StopsAsRun; [exact Hsock | now apply EndsRunning].
  - cbn [while_true]. unfold bind.
    pose proof (body_stops k st Hlog Hc) as H.
    destruct (body e st) as [[[]|x|] st1].
    + destruct H as (Hr & Hlog1 & Hc1 & Hs1).
      assert (Hall1 : all_ok (rounds (replies e) (S k)) = true)
        by (rewrite rounds_S, all_ok_app, Hall, Hr; reflexivity).
      destruct (IH (S k) st1 Hsock Hlog1 Hall1 Hc1) as (HE & Hs & Hd).
      replace (k + S fuel)%nat with (S k + fuel)%nat by lia.
      repeat split; [exact HE | congruence | exact Hd].
    + destruct H as (HE & Hs). simpl.
      repeat split;
        [apply HE; [exact Hsock | lia | exact Hall] | exact Hs | discriminate].
    + destruct H.
Qed.

(** Every process looks one of the ways of [Stops]; its socket is connected
    while the loop runs, closed once the process has stopped, and was never
    there when it could not be made. *)
Theorem process_stops fuel r st :
  process e fuel = (r, st) ->
  Stops e fuel r (log st) (counter st) /\
  sock st = match r, socket_made e with
            | Running, _ => Connected
            | _, Ok => Closed
            | _, _ => NoSocket
            end.
Proof.
  unfold process, script, with_new_socket, exn_of_socket, raise.
  destruct (socket_made e) eqn:Hsock.
  2: { intros [= <- <-]. split; [|reflexivity].
       eapply Stops_eq; [apply StopsNoSocket; congruence| | |];
       unfold exn_of_socket; rewrite ?Hsock; reflexivity. }
  2: { intros [= <- <-]. split; [|reflexivity].
       eapply Stops_eq; [apply StopsNoSocket; congruence| | |];
       unfold exn_of_socket; rewrite ?Hsock; reflexivity. }
  unfold with_socket, connect, print, check, check_before, pending, raise,
    invoke, ret, set_counter, bind.
  rewrite hello_line. simpl.
  destruct (signals e 0%nat) eqn:G0; simpl;
    [| intros [= <- <-]; split; [|reflexivity];
       apply StopsBeforeConnect; congruence ..].
  assert (Hstart : started e) by (split; assumption).
  destruct (outcome_of (replies e 0%nat)) eqn:E0; simpl;
    [| intros [= <- <-]; split; [|reflexivity];
       apply StopsAsRun; [exact Hstart|];
       eapply Ends_eq; [apply EndsConnect; facts| | |]; facts ..].
  destruct (signals e 1%nat) eqn:G1; simpl;
    [| intros [= <- <-]; split; [|reflexivity];
       apply StopsBeforeHello; [exact Hstart | facts | congruence] ..].
  destruct (outcome_of (replies e 1%nat)) eqn:E1; simpl;
    [| intros [= <- <-]; split; [|reflexivity];
       apply StopsAsRun; [exact Hstart|];
       eapply Ends_eq; [apply EndsHello; facts| | |]; facts ..].
  assert (Hall : all_ok (rounds (replies e) 0) = true)
    by (unfold all_ok, rounds; simpl; facts).
  destruct (signals e 2%nat) eqn:G2; simpl;
    try (intros [= <- <-]; split; [|reflexivity];
         now apply StopsBeforeInit).
  - pose proof (loop_stops fuel 0
                  (mk_state [at_connect (replies e); at_hello (replies e)]
                            (Some 0) Connected)
                  Hstart eq_refl Hall eq_refl) as (HE & Hs & Hd).
    cbv zeta in *.
    destruct (while_true fuel (body e) _) as [[[]|x|] st1];
      cbn [fst snd] in *; intros [= <- <-];
      cbn [log counter sock with_sock];
      [congruence | split; [exact HE | reflexivity]
      | split; [exact HE | exact Hs]].
  - pose proof (loop_stops fuel 0
                  (mk_state [at_connect (replies e); at_hello (replies e)]
                            (Some 0) Connected)
                  Hstart eq_refl Hall eq_refl) as (HE & Hs & Hd).
    cbv zeta in *.
    destruct (while_true fuel (body e) _) as [[[]|x|] st1];
      cbn [fst snd] in *; intros [= <- <-];
      cbn [log counter sock with_sock];
      [congruence | split; [exact HE | reflexivity]
      | split; [exact HE | exact Hs]].
Qed.

End ProcessShape.

(** Without signals and with a socket, the process is the run of its
    replies. *)
Theorem process_quiet (w : world) (fuel : nat) :
  process (quiet w) fuel = run w fuel.
Proof.
  unfold process, script, with_new_socket, run, main, with_socket, check,
    check_before, pending, quiet, connect, print, invoke, ret, set_counter,
    bind.
  simpl.
  destruct (outcome_of (w 0%nat)); reflexivity.
Qed.

Ltac stops_cases e fuel :=
  let r := fresh "r" in
  let l := fresh "l" in
  let c := fresh "c" in
  let s := fresh "s" in
  let Hp := fresh "Hp" in
  let HS := fresh "HS" in
  let Hs := fresh "Hsocket" in
  destruct (process e fuel) as [r [l c s]] eqn:Hp;
  apply process_stops in Hp; cbn [fst snd log counter sock] in Hp |- *;
  destruct Hp as [HS Hs]; inversion HS; subst; clear HS;
  try match goal with
      | H : Ends _ _ _ _ _ |- _ => inversion H; subst; clear H
      end.

Section ProcessPayloads.
Variable e : env.

(** The payloads and the clock readings of a process: [q] readings, of
    which the first [m] were handed to [sendall] and the first [n] sent;
    only the last reading can lack its payload. *)
Lemma process_payloads fuel :
  let l := log (snd (process e fuel)) in
  exists n m q,
    (n <= m <= q)%nat /\ (q <= S n)%nat /\ (q <= fuel)%nat /\
    delivered l = map (payload_of (replies e)) (seq 0 n) /\
    submitted l = map (payload_of (replies e)) (seq 0 m) /\
    readings l = map (clock_of (replies e)) (seq 0 q).
Proof.
  cbv zeta.
  stops_cases e fuel;
    [ exists 0%nat, 0%nat, 0%nat
    | exists fuel, fuel, fuel | exists 0%nat, 0%nat, 0%nat
    | exists 0%nat, 0%nat, 0%nat | exists k, k, k | exists k, (S k), (S k)
    | exists (S k), (S k), (S k) | exists (S k), (S k), (S k)
    | exists 0%nat, 0%nat, 0%nat | exists 0%nat, 0%nat, 0%nat
    | exists 0%nat, 0%nat, 0%nat
    | exists k, k, k | exists k, k, (S k) | exists (S k), (S k), (S k)
    | exists (S k), (S k), (S k) | exists (S k), (S k), (S k) ];
    tail_proj; rewrite ?seq_S, ?map_app, ?app_nil_r;
    repeat split; solve [lia | reflexivity].
Qed.

End ProcessPayloads.

(* ================================================================= *)
(** ** Where the pattern occurs *)

Section Fractions.

Lemma Matches_any_star s : Matches (Star Any) s.
Proof.
  induction s as [|c s IH]; [constructor|].
  change (String c s) with (String c "" ++ s). constructor; [constructor|auto].
Qed.

(** [search] finds the pattern when some stretch of the text matches it. *)
Lemma search_spec r s :
  search r s = true <-> exists a m b, s = a ++ m ++ b /\ Matches r m.
Proof.
  unfold search. rewrite fullmatch_spec. split.
  - intros H. inversion H as [| | | |? ? a rest Ha Hrest| | | |]; subst.
    inversion Hrest as [| | | |? ? m b Hm Hb| | | |]; subst.
    exists a, m, b. auto.
  - intros (a & m & b & -> & Hm).
    constructor; [apply Matches_any_star|].
    constructor; [exact Hm | apply Matches_any_star].
Qed.

Lemma Matches_plus_digits_nonempty s : Matches (Plus Digit) s -> s <> "".
Proof.
  intros H. inversion H as [| | | |r1 r2 s1 s2 H1 H2| | | |]; subst.
  inversion H1; subst. discriminate.
Qed.

(** What the pattern matches, with the runs of digits not empty. *)
Lemma payload_pattern_parts s :
  Matches payload_pattern s ->
  exists d1 d2 d3,
    s = "Hello " ++ d1 ++ " at " ++ d2 ++ "." ++ d3 /\
    all_digits d1 = true /\
    (all_digits d2 = true /\ d2 <> "") /\ (all_digits d3 = true /\ d3 <> "").
Proof.
  unfold payload_pattern. intros H.
  inversion H as [| | | |? ? h r1 Hh H1| | | |]; subst.
  inversion H1 as [| | | |? ? d1 r2 Hd1 H2| | | |]; subst.
  inversion H2 as [| | | |? ? a r3 Ha H3| | | |]; subst.
  inversion H3 as [| | | |? ? d2 r4 Hd2 H4| | | |]; subst.
  inversion H4 as [| | | |? ? pt d3 Hpt Hd3| | | |]; subst.
  apply (Matches_Lit_inv "Hello ") in Hh. apply (Matches_Lit_inv " at ") in Ha.
  subst. inversion Hpt; subst.
  exists d1, d2, d3.
  repeat split;
    auto using Matches_plus_digits_inv, Matches_plus_digits_nonempty.
Qed.

(** A text is cut at the first occurrence of a character in one way. *)
Lemma split_at_first c : forall u1 u2 v1 v2,
  occurrences c u1 = O -> occurrences c v1 = O ->
  u1 ++ String c u2 = v1 ++ String c v2 -> u1 = v1 /\ u2 = v2.
Proof.
  induction u1 as [|a u1 IH]; intros u2 [|b v1] v2; simpl; intros Hu Hv Heq.
  - injection Heq; auto.
  - injection Heq as <- _. rewrite Ascii.eqb_refl in Hv. discriminate.
  - injection Heq as -> _. rewrite Ascii.eqb_refl in Hu. discriminate.
  - injection Heq as -> Heq. destruct (Ascii.eqb b c); [discriminate|].
    destruct (IH _ _ _ Hu Hv Heq) as [-> ->]. auto.
Qed.

(** The pattern occurs in a message exactly when the text of its timestamp
    starts with digits, a point and a digit. *)
Lemma search_message_iff K F :
  all_digits K = true -> K <> "" -> occurrences "a" F = O ->
  (search payload_pattern ("Hello " ++ K ++ " at " ++ F) = true <->
   exists d2 d3 b,
     F = d2 ++ "." ++ d3 ++ b /\
     (all_digits d2 = true /\ d2 <> "") /\ (all_digits d3 = true /\ d3 <> "")).
Proof.
  intros HK HKne HF. rewrite search_spec. split.
  - intros (a & m & b & Heq & Hm).
    apply payload_pattern_parts in Hm
      as (d1 & d2 & d3 & -> & H1 & [H2 H2ne] & [H3 H3ne]).
    exists d2, d3, b. repeat split; try assumption.
    pose proof (f_equal (occurrences "a") Heq) as Hocc.
    rewrite !occurrences_app in Hocc.
    rewrite (occurrences_digits "a" K), (occurrences_digits "a" d1),
      (occurrences_digits "a" d2), (occurrences_digits "a" d3), HF in Hocc
      by (assumption || reflexivity).
    cbn in Hocc.
    assert (E1 : "Hello " ++ K ++ " at " ++ F
                 = ("Hello " ++ K ++ " ") ++ String "a" ("t " ++ F))
      by (rewrite !append_assoc; reflexivity).
    assert (E2 : a ++ ("Hello " ++ d1 ++ " at " ++ d2 ++ "." ++ d3) ++ b
                 = (a ++ "Hello " ++ d1 ++ " ")
                     ++ String "a" ("t " ++ d2 ++ "." ++ d3 ++ b))
      by (rewrite !append_assoc; reflexivity).
    rewrite E1, E2 in Heq.
    apply split_at_first in Heq as [_ Heq].
    + now injection Heq.
    + rewrite !occurrences_app, (occurrences_digits "a" K)
        by (assumption || reflexivity). reflexivity.
    + rewrite !occurrences_app, (occurrences_digits "a" d1)
        by (assumption || reflexivity). cbn. lia.
  - intros (d2 & d3 & b & -> & [H2 H2ne] & [H3 H3ne]).
    exists "", ("Hello " ++ K ++ " at " ++ d2 ++ "." ++ d3), b. split.
    + rewrite !append_assoc. reflexivity.
    + unfold payload_pattern.
      constructor; [apply Matches_Lit|].
      constructor; [now apply Matches_digit_text|].
      constructor; [apply Matches_Lit|].
      constructor; [now apply Matches_digit_text|].
      change ("." ++ d3) with (String "."%char "" ++ d3).
      constructor; [constructor | now apply Matches_digit_text].
Qed.

Lemma occurrences_digit_list c l :
  is_digit c = false -> forallb is_digit l = true ->
  occurrences c (string_of_list_ascii l) = O.
Proof.
  intros Hc Hl. apply occurrences_digits; [exact Hc|].
  unfold all_digits. now rewrite list_ascii_of_string_of_list_ascii.
Qed.

Lemma exponent_suffix_no_a e : occurrences "a" (exponent_suffix e) = O.
Proof.
  unfold exponent_suffix.
  destruct (str_int_digits (Z.abs e) (Z.abs_nonneg e)) as [Hd _].
  rewrite !occurrences_app, (occurrences_digits "a" _ eq_refl Hd).
  destruct (e <? 0), (Z.abs e <? 10); reflexivity.
Qed.

(** [repr] of a float holds no letter [a]. *)
Lemma float_repr_no_a t :
  wf_float t = true -> occurrences "a" (float_repr t) = O.
Proof.
  unfold wf_float. intros H. apply andb_true_iff in H as [Hd Hlen].
  apply negb_true_iff, Nat.eqb_neq in Hlen.
  assert (Hne : f_digits t <> [])
    by (destruct (f_digits t); simpl in *; congruence).
  unfold float_repr. cbv zeta.
  destruct ((f_decpt t <=? -4) || (16 <? f_decpt t)).
  - destruct (layout_digits (f_digits t) 1 Hd Hne) as (Hi & _ & Hf).
    destruct (layout (f_digits t) 1) as [ip fp]. cbn [fst snd] in Hi, Hf.
    rewrite !occurrences_app, exponent_suffix_no_a,
      (occurrences_digit_list "a" _ eq_refl Hi).
    destruct (f_neg t), fp; try reflexivity;
      now rewrite occurrences_app, (occurrences_digit_list "a" _ eq_refl Hf).
  - destruct (layout_digits (f_digits t) (f_decpt t) Hd Hne) as (Hi & _ & Hf).
    destruct (layout (f_digits t) (f_decpt t)) as [ip fp].
    cbn [fst snd] in Hi, Hf.
    rewrite !occurrences_app, (occurrences_digit_list "a" _ eq_refl Hi).
    destruct (f_neg t), fp; try reflexivity;
      now rewrite (occurrences_digit_list "a" _ eq_refl Hf).
Qed.

Lemma all_digits_list l :
  forallb is_digit l = true -> all_digits (string_of_list_ascii l) = true.
Proof.
  intros H. unfold all_digits. now rewrite list_ascii_of_string_of_list_ascii.
Qed.

Lemma string_of_list_nonempty (l : list ascii) :
  l <> [] -> string_of_list_ascii l <> "".
Proof. destruct l; simpl; congruence. Qed.

(** The text [repr] writes starts with digits, a point and a digit exactly
    for the readings of [fractional]. *)
Lemma float_repr_fraction t :
  wf_float t = true ->
  ((exists d2 d3 b,
      float_repr t = d2 ++ "." ++ d3 ++ b /\
      (all_digits d2 = true /\ d2 <> "") /\
      (all_digits d3 = true /\ d3 <> ""))
   <-> fractional t = true).
Proof.
  intros Hwf. unfold fractional. rewrite Hwf. cbn [andb].
  pose proof Hwf as Hwf'. unfold wf_float in Hwf'.
  apply andb_true_iff in Hwf' as [Hd Hlen].
  apply negb_true_iff, Nat.eqb_neq in Hlen.
  destruct (f_neg t) eqn:Hneg; cbn [negb andb].
  - (* a sign comes first *)
    split; [|discriminate].
    intros (d2 & d3 & b & Heq & [H2 H2ne] & _). exfalso.
    destruct d2 as [|c d2]; [congruence|].
    unfold all_digits in H2. cbn in H2.
    apply andb_true_iff in H2 as [Hc _].
    unfold float_repr in Heq. rewrite Hneg in Heq.
    destruct ((f_decpt t <=? -4) || (16 <? f_decpt t)), (layout _ _);
      cbn in Heq; injection Heq as <- _; discriminate.
  - destruct ((-4 <? f_decpt t) && (f_decpt t <=? 16)) eqn:Hrange;
      cbn [orb].
    + (* positional *)
      split; [reflexivity|]. intros _.
      assert (Hpos : positional t = true)
        by (unfold positional; now rewrite Hwf, Hneg, <- andb_assoc, Hrange).
      destruct (float_repr_positional_parts t Hpos)
        as (ip & fp & -> & Hi & Hin & Hf & Hfn).
      exists (string_of_list_ascii ip), (string_of_list_ascii fp), "".
      rewrite append_empty_r.
      auto using all_digits_list, string_of_list_nonempty.
    + (* with an exponent *)
      assert (Hexp : (f_decpt t <=? -4) || (16 <? f_decpt t) = true).
      { apply orb_true_iff. apply andb_false_iff in Hrange as [H|H];
          [left; apply Z.leb_le; apply Z.ltb_ge in H
          |right; apply Z.ltb_lt; apply Z.leb_gt in H]; lia. }
      unfold float_repr. rewrite Hneg, Hexp.
      destruct (f_digits t) as [|d [|d' rest]] eqn:Hds;
        [now cbn in Hlen| |].
      * (* one digit: no point *)
        cbn. split; [|discriminate].
        intros (d2 & d3 & b & Heq & [H2 H2ne] & _). exfalso.
        destruct d2 as [|c [|c' d2]]; [congruence| |];
          cbn in Heq; [discriminate|].
        injection Heq as _ <- _.
        unfold all_digits in H2. cbn in H2.
        rewrite andb_false_r in H2. discriminate.
      * (* the second digit follows the point *)
        split; [reflexivity|]. intros _.
        unfold layout. change (1 <=? 0) with false. cbv iota.
        replace (1 <=? Z.of_nat (List.length (d :: d' :: rest))) with true
          by (symmetry; apply Z.leb_le; cbn [List.length]; lia).
        change (Z.to_nat 1) with 1%nat. cbn [firstn skipn].
        exists (String d ""), (string_of_list_ascii (d' :: rest)),
          (exponent_suffix (f_decpt t - 1)).
        cbn [forallb] in Hd.
        apply andb_true_iff in Hd as [Hd1 Hd2].
        split; [cbn; now rewrite ?append_assoc|].
        repeat split.
        -- unfold all_digits. cbn. now rewrite Hd1.
        -- discriminate.
        -- now apply all_digits_list.
        -- discriminate.
Qed.

(** The pattern occurs in the payload text exactly for the readings of
    [fractional]. *)
Theorem message_search_iff k t :
  0 <= k -> wf_float t = true ->
  (search payload_pattern (message k t) = true <-> fractional t = true).
Proof.
  intros Hk Hwf. destruct (str_int_digits k Hk) as [Hd Hne].
  unfold message.
  rewrite (search_message_iff _ _ Hd Hne (float_repr_no_a t Hwf)).
  now apply float_repr_fraction.
Qed.

End Fractions.

(* ================================================================= *)
(** ** The log of a process *)

Lemma firstn_length_app {A} (l r : list A) :
  firstn (List.length l) (l ++ r) = l.
Proof. induction l as [|a l IH]; cbn; [reflexivity | now rewrite IH]. Qed.

Lemma firstn_nth_error {A} (n : nat) : forall (l : list A) k x,
  nth_error (firstn n l) k = Some x -> nth_error l k = Some x.
Proof.
  induction n as [|n IH]; intros [|a l] [|k] x; cbn; try discriminate; auto.
Qed.

Ltac stdout_proj :=
  rewrite ?printed_app; rewrite ?printed_rounds by assumption;
  tail_proj; unfold printed; cbn [flat_map fst List.app];
  repeat match goal with H : ok _ = _ |- _ => rewrite H end;
  cbn [List.app]; rewrite ?app_nil_r.

Section ProcessFacts.
Variable e : env.

(** A process has made no call, when it had no socket or was stopped before
    the [connect]; or its first call is the [connect], the only one. *)
Lemma process_connects fuel :
  let l := log (snd (process e fuel)) in
  (l = [] /\ (socket_made e <> Ok \/ signals e 0%nat <> Quiet)) \/
  (started e /\ connects l = [(HOST, PORT)] /\
   exists rest, l = at_connect (replies e) :: rest).
Proof.
  cbv zeta.
  stops_cases e fuel;
    first [ left; split; [reflexivity | auto]
          | right; split; [assumption|];
            split; [tail_proj; reflexivity
                   | unfold rounds; simpl; eexists; reflexivity] ].
Qed.

(** The log of a process is a beginning of the log of the run in which
    every call returns. *)
Lemma process_prefix fuel :
  exists rest,
    rounds (replies e) fuel = (log (snd (process e fuel)) ++ rest)%list.
Proof.
  stops_cases e fuel;
    try match goal with
        | H : (?k < fuel)%nat |- _ =>
            destruct (rounds_split (replies e) k fuel H) as [rest Hrest];
            rewrite Hrest
        end;
    first [ exists []; now rewrite app_nil_r
          | eexists; unfold round; rewrite <- ?app_assoc; simpl;
            reflexivity ].
Qed.

(** The payloads of a process beside the payloads its clock readings
    call for. *)
Lemma process_expected fuel :
  let l := log (snd (process e fuel)) in
  let E := expected_payloads (readings l) in
  submitted l = firstn (List.length (submitted l)) E /\
  delivered l = firstn (List.length (delivered l)) E /\
  (List.length (delivered l) <= List.length (submitted l))%nat /\
  (List.length (submitted l) <= List.length E)%nat /\
  (List.length E <= S (List.length (delivered l)))%nat /\
  List.length E = List.length (readings l).
Proof.
  cbv zeta.
  destruct (process_payloads e fuel)
    as (n & m & q & Hnm & Hq & _ & Hd & Hs & Hr).
  rewrite Hd, Hs, Hr, expected_payloads_clock, !length_map, !length_seq.
  rewrite !firstn_map, !firstn_seq_le by lia.
  repeat split; lia.
Qed.

(** What a process has handed to [print], beside what it has sent and
    read. *)
Lemma process_stdout fuel :
  let l := log (snd (process e fuel)) in
  exists j n m,
    (j <= n <= S j)%nat /\
    delivered l = map (payload_of (replies e)) (seq 0 n) /\
    ((n <= m)%nat /\ readings l = map (clock_of (replies e)) (seq 0 m)) /\
    (printed l = [] /\ n = O \/
     printed l = greeting :: map (sent_line (replies e)) (seq 0 j)).
Proof.
  cbv zeta.
  stops_cases e fuel;
    [ exists 0%nat, 0%nat, 0%nat
    | exists fuel, fuel, fuel | exists 0%nat, 0%nat, 0%nat
    | exists 0%nat, 0%nat, 0%nat | exists k, k, k | exists k, k, (S k)
    | exists k, (S k), (S k) | exists (S k), (S k), (S k)
    | exists 0%nat, 0%nat, 0%nat | exists 0%nat, 0%nat, 0%nat
    | exists 0%nat, 0%nat, 0%nat
    | exists k, k, k | exists k, k, (S k) | exists k, (S k), (S k)
    | exists (S k), (S k), (S k) | exists (S k), (S k), (S k) ];
    stdout_proj; rewrite ?seq_S, ?map_app;
    (split; [lia|]); (split; [reflexivity|]);
    (split; [split; [lia | reflexivity]|]);
    solve [left; split; reflexivity | right; reflexivity].
Qed.

End ProcessFacts.

(* ================================================================= *)
(** ** The properties of the specification, for the whole process *)

(** C2.  Every payload a process hands to [sendall], and so every payload
    written to the stream, is the UTF-8 encoding of the text
    [Hello <sequence> at <timestamp>]: the payload number [k] carries the
    counter [k] in base ten and [repr] of the clock reading number [k].  For
    a finite reading the payload is the text byte for character; the whole
    payload matches the pattern [Hello \d+ at \d+\.\d+] exactly when the
    sign bit of the reading is clear and [repr] writes it positionally, and
    the pattern occurs somewhere in the payload exactly when the sign bit is
    clear and [repr] writes a digit after a point, positionally or before an
    exponent. *)
Theorem payload_is_the_encoded_message (e : env) (fuel k : nat) (p : bytes) :
  let l := log (snd (process e fuel)) in
  nth_error (submitted l) k = Some p ->
  delivered l = firstn (List.length (delivered l)) (submitted l) /\
  exists t,
    nth_error (readings l) k = Some t /\
    p = encode ("Hello " ++ str_int (Z.of_nat k) ++ " at " ++ float_repr t) /\
    (all_digits (str_int (Z.of_nat k)) = true /\
     int_of_text (str_int (Z.of_nat k)) = Some (Z.of_nat k)) /\
    decode_utf8 p = Some (message (Z.of_nat k) t) /\
    (wf_float t = true ->
     decode_ascii p = message (Z.of_nat k) t /\
     (fullmatch payload_pattern (decode_ascii p) = true
      <-> positional t = true) /\
     (search payload_pattern (decode_ascii p) = true
      <-> fractional t = true)).
Proof.
  cbv zeta.
  destruct (process_payloads e fuel)
    as (n & m & q & Hnm & _ & _ & Hd & Hs & Hr).
  rewrite Hd, Hs, Hr. intros Hp. apply nth_error_map_seq in Hp as [Hlt ->].
  split.
  { rewrite length_map, length_seq, firstn_map, firstn_seq_le by lia.
    reflexivity. }
  exists (clock_of (replies e) k). rewrite nth_error_map_seq_lt by lia.
  pose proof (Nat2Z.is_nonneg k) as Hk.
  destruct (str_int_digits (Z.of_nat k) Hk) as [Hdig _].
  split; [reflexivity|]. split; [reflexivity|].
  split; [split; [exact Hdig | apply int_of_text_str_int]|].
  split; [apply decode_utf8_encode|].
  intros Hwf. unfold payload_of.
  assert (Ha : is_ascii (message (Z.of_nat k) (clock_of (replies e) k)) = true).
  { unfold message.
    rewrite !is_ascii_app, (all_digits_ascii _ Hdig), float_repr_ascii;
      [reflexivity | exact Hwf]. }
  rewrite (decode_encode _ Ha).
  split; [reflexivity|].
  split; [now apply message_matches_iff | now apply message_search_iff].
Qed.

(** Witness for C2: the second payload of a process on a clock of 2023. *)
Lemma payload_is_the_encoded_message_witness :
  nth_error (submitted (log (snd (process (quiet calm) 2)))) 1
    = Some (encode "Hello 1 at 1700000000.25") /\
  decode_utf8 (encode "Hello 1 at 1700000000.25")
    = Some "Hello 1 at 1700000000.25".
Proof.
  split; [reflexivity|].
  destruct (payload_is_the_encoded_message (quiet calm) 2 1 _ eq_refl)
    as (_ & t & Ht & _ & _ & Hd & _).
  assert (Et : t_2023 = t)
    by (change (Some t_2023 = Some t) in Ht; now injection Ht).
  subst t. exact Hd.
Defined.

(** C7 as stated fails: a process that cannot make its socket never calls
    [connect]. *)
Lemma no_connect_without_socket :
  ~ (forall (e : env) (fuel : nat),
       connects (log (snd (process e fuel))) = [(HOST, PORT)]).
Proof.
  intros H. specialize (H no_descriptor 1%nat). vm_compute in H.
  discriminate.
Qed.

(** C7.  The configuration is the host 127.0.0.1 and the port 6000.  A
    process calls [connect] at most once: not at all when its socket could
    not be made or a signal stopped it before the call, and then it makes no
    call whatever; otherwise once, with that host and port, as its first
    call, and never again after it. *)
Theorem connects_at_most_once (e : env) (fuel : nat) :
  let l := log (snd (process e fuel)) in
  (HOST = "127.0.0.1" /\ PORT = 6000) /\
  (l = [] \/
   exists rest,
     l = (Connect HOST PORT, replies e 0%nat) :: rest /\ connects rest = []) /\
  (l = [] <-> socket_made e <> Ok \/ signals e 0%nat <> Quiet) /\
  (connects l = [(HOST, PORT)]
   <-> socket_made e = Ok /\ signals e 0%nat = Quiet).
Proof.
  cbv zeta. split; [split; reflexivity|].
  destruct (process_connects e fuel)
    as [[Hnil Hwhy] | ([Hs Hq] & Hc & rest & Hrest)].
  - rewrite Hnil. split; [now left|]. split.
    + split; [intros _; exact Hwhy | reflexivity].
    + split; [discriminate|]. intros [Hs Hq].
      destruct Hwhy as [H|H]; contradiction.
  - rewrite Hc, Hrest. split; [|split].
    + right. exists rest. split; [reflexivity|].
      rewrite Hrest in Hc. unfold connects, at_connect in Hc.
      cbn [flat_map fst List.app] in Hc. now injection Hc.
    + split; [discriminate|]. intros [H|H]; contradiction.
    + split; [intros _; split; assumption | reflexivity].
Qed.

(** Witness for C7: a process with a socket and no signal. *)
Lemma connects_at_most_once_witness :
  connects (log (snd (process (quiet calm) 3))) = [("127.0.0.1", 6000)].
Proof.
  apply (proj2 (proj2 (proj2 (proj2 (connects_at_most_once (quiet calm) 3))))).
  split; reflexivity.
Defined.

(** C10 as stated fails: two processes read the same two clock values from
    the same replies, and a signal stops one of them before its second
    [sendall]; they have not written the same payloads. *)
Lemma same_clock_other_stream :
  ~ (forall (e1 e2 : env) (fuel1 fuel2 : nat),
       readings (log (snd (process e1 fuel1)))
         = readings (log (snd (process e2 fuel2))) ->
       delivered (log (snd (process e1 fuel1)))
         = delivered (log (snd (process e2 fuel2)))).
Proof.
  intros H.
  specialize (H (quiet calm) stopped_before_send 2%nat 2%nat eq_refl).
  vm_compute in H. discriminate.
Qed.

(** C10.  The payloads are a function of the clock readings up to the last
    one.  The readings of a process call for one payload each, the payload
    number [k] being the encoding of the counter [k] and of the reading
    number [k]; what the process has written is a beginning of that list
    that leaves out the last payload at most, and so is what it has handed
    to [sendall].  Two processes that read the same clock values have
    written the same payload at every position both have reached, and the
    same payloads when they have written as many. *)
Theorem payloads_follow_the_clock (e1 e2 : env) (fuel1 fuel2 : nat) :
  let l1 := log (snd (process e1 fuel1)) in
  let l2 := log (snd (process e2 fuel2)) in
  readings l1 = readings l2 ->
  let E := expected_payloads (readings l1) in
  (delivered l1 = firstn (List.length (delivered l1)) E /\
   delivered l2 = firstn (List.length (delivered l2)) E) /\
  (submitted l1 = firstn (List.length (submitted l1)) E /\
   submitted l2 = firstn (List.length (submitted l2)) E) /\
  (List.length E = List.length (readings l1) /\
   List.length E <= S (List.length (delivered l1)) /\
   List.length E <= S (List.length (delivered l2)))%nat /\
  (forall k p1 p2,
     nth_error (delivered l1) k = Some p1 ->
     nth_error (delivered l2) k = Some p2 -> p1 = p2) /\
  (List.length (delivered l1) = List.length (delivered l2) ->
   delivered l1 = delivered l2) /\
  (List.length (submitted l1) = List.length (submitted l2) ->
   submitted l1 = submitted l2).
Proof.
  cbv zeta. intros Hr.
  destruct (process_expected e1 fuel1) as (Hs1 & Hd1 & _ & _ & Hl1 & Hlen).
  destruct (process_expected e2 fuel2) as (Hs2 & Hd2 & _ & _ & Hl2 & _).
  cbv zeta in *. rewrite <- Hr in Hs2, Hd2, Hl2.
  split; [split; assumption|]. split; [split; assumption|].
  split; [repeat split; assumption|].
  split; [|split].
  - intros k p1 p2 H1 H2. rewrite Hd1 in H1. rewrite Hd2 in H2.
    apply firstn_nth_error in H1, H2. congruence.
  - intros Hsame. rewrite Hd1, Hd2, Hsame. reflexivity.
  - intros Hsame. rewrite Hs1, Hs2, Hsame. reflexivity.
Qed.

(** Witness for C10: a process that runs on and one whose peer hangs up
    read the same two clock values. *)
Lemma payloads_follow_the_clock_witness :
  readings (log (snd (process (quiet calm) 2)))
    = readings (log (snd (process (quiet hangup) 5))) /\
  (forall k p1 p2,
     nth_error (delivered (log (snd (process (quiet calm) 2)))) k = Some p1 ->
     nth_error (delivered (log (snd (process (quiet hangup) 5)))) k = Some p2 ->
     p1 = p2).
Proof.
  split; [reflexivity|].
  apply (payloads_follow_the_clock (quiet calm) (quiet hangup) 2 5 eq_refl).
Defined.

(* ================================================================= *)
(** ** More about the whole process *)

(** X1.  The script never returns normally.  A process is still in its loop
    after [n] rounds when its socket was made, no signal came in the gaps
    before its first [2 + 4n] calls or after the last of them, and these
    calls (the [connect], the [print], then the [time.time()], the
    [sendall], the [print] and the [sleep] of each round) all returned; and
    only then is it in its loop: its socket was made, these calls were made
    and returned, and the counter stands at [n]. *)
Theorem process_runs_while_nothing_stops_it (e : env) (fuel : nat) :
  let out := process e fuel in
  fst out <> Done tt /\
  (socket_made e = Ok ->
   (forall i, (i <= 2 + 4 * fuel)%nat -> signals e i = Quiet) ->
   (forall i, (i < 2 + 4 * fuel)%nat -> outcome_of (replies e i) = Ok) ->
   fst out = Running) /\
  (fst out = Running ->
   (socket_made e = Ok /\ signals e 0%nat = Quiet) /\
   log (snd out) = rounds (replies e) fuel /\
   (forall i, (i < 2 + 4 * fuel)%nat -> outcome_of (replies e i) = Ok) /\
   counter (snd out) = Some (Z.of_nat fuel)).
Proof.
  cbv zeta.
  stops_cases e fuel; (split; [discriminate|]);
    (split;
     [ intros Hmade Hquiet Hreturn; try reflexivity; exfalso;
       try congruence;
       repeat match goal with
         | H : ok _ = false |- _ =>
             unfold ok, at_connect, at_hello, at_time, at_send, at_sent,
               at_sleep in H;
             cbn [fst snd] in H; rewrite Hreturn in H by lia;
             discriminate H
         | H : signals e _ <> Quiet |- _ =>
             rewrite Hquiet in H by lia; congruence
         | H : signals e _ = _ |- _ =>
             rewrite Hquiet in H by lia; discriminate H
         end
     | intros Hrun; try discriminate Hrun ]).
  repeat split; try reflexivity;
    match goal with
    | H : started e |- _ => destruct H as [Hs Hq]
    end; try assumption.
  now apply all_ok_rounds_replies.
Qed.

(** Witness for X1: three rounds in which nothing stops the process. *)
Lemma process_runs_while_nothing_stops_it_witness :
  fst (process (quiet calm) 3) = Running.
Proof.
  apply (proj1 (proj2 (process_runs_while_nothing_stops_it (quiet calm) 3)));
    [reflexivity | intros i _; reflexivity | intros i _; reflexivity].
Defined.

(** X5.  The lines the script hands to [print] tell what went over the
    wire.  The first line is the report of the connection; the line number
    [k + 1] is [Sent: ] followed by the text of the message number [k],
    which has been sent before the line is handed over and carries the
    clock reading number [k]; at most one message sent has not been handed
    to [print] yet. *)
Theorem print_reports_what_was_sent (e : env) (fuel : nat) :
  let l := log (snd (process e fuel)) in
  (forall line, nth_error (printed l) 0 = Some line ->
     line = "Connected to 127.0.0.1:6000" ++ newline) /\
  (forall k line, nth_error (printed l) (S k) = Some line ->
     exists p t,
       nth_error (delivered l) k = Some p /\
       nth_error (readings l) k = Some t /\
       p = encode (message (Z.of_nat k) t) /\
       line = "Sent: " ++ message (Z.of_nat k) t ++ newline) /\
  (List.length (delivered l) <= List.length (printed l)
                             <= S (List.length (delivered l)))%nat.
Proof.
  cbv zeta.
  destruct (process_stdout e fuel)
    as (j & n & m & Hjn & Hd & [Hnm Hr] & [[Hp Hn] | Hp]);
    rewrite Hd, Hr, Hp; clear Hd Hr Hp.
  - subst n. repeat split.
    + discriminate.
    + intros [|k] line; discriminate.
    + cbn. lia.
    + cbn. lia.
  - repeat split.
    + now intros line [= <-].
    + intros k line Hk. cbn [nth_error] in Hk.
      apply nth_error_map_seq in Hk as [Hlt ->].
      exists (payload_of (replies e) k), (clock_of (replies e) k).
      rewrite !nth_error_map_seq_lt by lia. repeat split.
    + cbn [List.length]. rewrite !length_map, !length_seq. lia.
    + cbn [List.length]. rewrite !length_map, !length_seq. lia.
Qed.

(** Witness for X5: the second line of a process that a signal stops before
    its second [sendall]. *)
Lemma print_reports_what_was_sent_witness :
  nth_error (printed (log (snd (process stopped_before_send 2)))) 1
    = Some ("Sent: Hello 0 at 1700000000.25" ++ newline) /\
  nth_error (delivered (log (snd (process stopped_before_send 2)))) 0
    = Some (encode "Hello 0 at 1700000000.25").
Proof.
  split; [reflexivity|].
  destruct (proj1 (proj2 (print_reports_what_was_sent stopped_before_send 2))
              0%nat _ eq_refl)
    as (p & t & Hp & Ht & -> & _).
  rewrite Hp. f_equal. f_equal.
  assert (Et : t_2023 = t)
    by (change (Some t_2023 = Some t) in Ht; now injection Ht).
  now subst t.
Defined.

(** X12.  The calls of a process come in the order of the script, each
    with the arguments the script gives it: the log is a beginning, perhaps
    empty, of the log that the same replies give when every call returns,
    that is the [connect], the first [print], and for each round the
    [time.time()], the [sendall], the [print] and the [sleep(1)], in this
    order.  It is empty only when the socket could not be made or a signal
    came before the [connect]. *)
Theorem calls_in_script_order (e : env) (fuel : nat) :
  let l := log (snd (process e fuel)) in
  l = firstn (List.length l) (rounds (replies e) fuel) /\
  (List.length l <= 2 + 4 * fuel)%nat /\
  (socket_made e = Ok -> signals e 0%nat = Quiet -> (1 <= List.length l)%nat).
Proof.
  cbv zeta. destruct (process_prefix e fuel) as [rest Hrest].
  split; [|split].
  - rewrite Hrest. symmetry. apply firstn_length_app.
  - pose proof (length_rounds (replies e) fuel) as Hlen.
    rewrite Hrest, length_app in Hlen. lia.
  - intros Hs Hq.
    destruct (process_connects e fuel) as [[_ [H|H]] | (_ & _ & r & ->)];
      [contradiction | contradiction | cbn; lia].
Qed.

(** Witness for X12: the first call of a process with a socket and no
    signal. *)
Lemma calls_in_script_order_witness :
  (1 <= List.length (log (snd (process (quiet hangup) 5))))%nat.
Proof.
  apply (proj2 (proj2 (calls_in_script_order (quiet hangup) 5)));
    reflexivity.
Defined.
